(** * Mastermind: a shallow embedding of [main.py]

    The development follows the Python source top to bottom: the value
    classes [Code] and [PegScore], the scorer [get_peg_score], the minimax
    selector ([get_min_eliminated], [get_next_guess]) and the three game
    drivers.  Python integers are [Z]; a Python [set] object lives in a
    store and is referred to through a location, so that two variables
    bound to the same object are really aliased. *)

From Stdlib Require Import ZArith Lia List Bool Ascii String Permutation.
From Stdlib Require Import DecimalString.
From stdpp Require Import base list.
Import ListNotations.
Open Scope Z_scope.

(** ** Exceptions and results *)

(** The exceptions the program can raise: [raise Exception(msg)] in the
    source, [KeyError] from [set.remove] and [IndexError] from indexing an
    empty list. *)
Inductive exn : Type :=
  | PyException (msg : string)
  | KeyError
  | IndexError.

Inductive result (A : Type) : Type :=
  | OK (a : A)
  | Raise (e : exn).
Arguments OK {A} a.
Arguments Raise {A} e.

(** ** class Code *)

Module Code.

Record t : Type := mk { _peg1 : Z; _peg2 : Z; _peg3 : Z; _peg4 : Z }.

Definition CODE_PEG_COLORS : list Z := [1; 2; 3; 4; 5; 6].

(** [elt in Code.CODE_PEG_COLORS] *)
Definition is_color (elt : Z) : bool := existsb (Z.eqb elt) CODE_PEG_COLORS.

(** [Code.__init__] *)
Definition __init__ (peg_array : list Z) : result t :=
  if forallb is_color peg_array && (length peg_array =? 4)%nat
  then OK (mk (nth 0 peg_array 0) (nth 1 peg_array 0)
              (nth 2 peg_array 0) (nth 3 peg_array 0))
  else Raise (PyException
         "Code must be initialized with a list of four code peg colors").

Definition to_number (self : t) : Z :=
  _peg1 self * 1000 + _peg2 self * 100 + _peg3 self * 10 + _peg4 self.

(** [Code.__eq__] on two [Code] instances. *)
Definition __eq__ (self other : t) : bool :=
  to_number self =? to_number other.

(** [Code.__hash__] hashes the tuple of pegs; the tuple stands for its hash. *)
Definition __hash__ (self : t) : Z * Z * Z * Z :=
  (_peg1 self, _peg2 self, _peg3 self, _peg4 self).

(** The four pegs in order, as the scorer lists them. *)
Definition pegs (self : t) : list Z :=
  [_peg1 self; _peg2 self; _peg3 self; _peg4 self].

(** What a successful [__init__] guarantees. *)
Definition valid (self : t) : Prop :=
  1 <= _peg1 self <= 6 /\ 1 <= _peg2 self <= 6 /\
  1 <= _peg3 self <= 6 /\ 1 <= _peg4 self <= 6.

End Code.

Abbreviation Code := Code.t.

(** ** Python sets of codes *)

(** The contents of a set object, in iteration order.  Python leaves that
    order unspecified; statements about sets quantify over every list. *)
Abbreviation pyset := (list Code).

(** [c in s] *)
Definition set_contains (c : Code) (s : pyset) : bool :=
  existsb (Code.__eq__ c) s.

(** [s.add(c)] *)
Definition set_add (c : Code) (s : pyset) : pyset :=
  if set_contains c s then s else s ++ [c].

(** [set(l)] *)
Definition set_of_list (l : list Code) : pyset :=
  fold_left (fun s c => set_add c s) l [].

(** The contents of [s] once [s.remove(c)] succeeded. *)
Fixpoint set_discard (c : Code) (s : pyset) : pyset :=
  match s with
  | [] => []
  | x :: s' => if Code.__eq__ x c then s' else x :: set_discard c s'
  end.

(** The codes in the order the nested loops of [Code.get_full_code_set]
    build them. *)
Definition all_codes : list Code :=
  flat_map (fun p1 =>
    flat_map (fun p2 =>
      flat_map (fun p3 =>
        List.map (fun p4 => Code.mk p1 p2 p3 p4) Code.CODE_PEG_COLORS)
      Code.CODE_PEG_COLORS)
    Code.CODE_PEG_COLORS)
  Code.CODE_PEG_COLORS.

(** [Code.get_full_code_set]: every code of the loops is added to an
    initially empty set. *)
Definition get_full_code_set : pyset :=
  fold_left (fun codes c => set_add c codes) all_codes [].

(** A list of numbers that increases strictly. *)
Fixpoint increasing (l : list Z) : bool :=
  match l with
  | x :: (y :: _) as r => (x <? y) && increasing r
  | _ => true
  end.

(** ** class PegScore *)

Module PegScore.

Record t : Type := mk { _num_red : Z; _num_white : Z }.

(** [PegScore.__init__] *)
Definition __init__ (num_red num_white : Z) : result t :=
  if (num_red + num_white >? 4) || (num_red + num_white <? 0)
     || (num_red >? 4) || (num_red <? 0)
     || (num_white >? 4) || (num_white <? 0)
  then Raise (PyException "Invalid peg score")
  else OK (mk num_red num_white).

(** [PegScore.__eq__] *)
Definition __eq__ (self other : t) : bool :=
  (_num_red self =? _num_red other) && (_num_white self =? _num_white other).

End PegScore.

Abbreviation PegScore := PegScore.t.

(** ** collections.Counter *)

(** A [Counter] is a dictionary from keys to counts; it is kept as an
    association list in insertion order, which is the order
    [most_common] breaks ties in. *)
Section Counter.
Context {K : Type} (eqb : K -> K -> bool).

Fixpoint Counter_incr (k : K) (ctr : list (K * Z)) : list (K * Z) :=
  match ctr with
  | [] => [(k, 1)]
  | (k', n) :: r =>
      if eqb k' k then (k', n + 1) :: r else (k', n) :: Counter_incr k r
  end.

(** [Counter(l)] *)
Definition Counter (l : list K) : list (K * Z) :=
  fold_left (fun ctr k => Counter_incr k ctr) l [].

(** [ctr[k]]: a missing key counts 0. *)
Fixpoint Counter_get (ctr : list (K * Z)) (k : K) : Z :=
  match ctr with
  | [] => 0
  | (k', n) :: r => if eqb k' k then n else Counter_get r k
  end.

(** The number of elements of [l] equal to [k]. *)
Definition occurrences (k : K) (l : list K) : Z :=
  fold_right (fun x n => Z.b2z (eqb x k) + n) 0 l.

(** [ctr.most_common(1)]: the first entry of largest count, or the empty
    list for an empty counter. *)
Definition most_common_1 (ctr : list (K * Z)) : list (K * Z) :=
  match ctr with
  | [] => []
  | e :: r =>
      [fold_left (fun best e' => if snd best <? snd e' then e' else best) r e]
  end.
End Counter.

(** ** The scorer *)

(** [set([...])] of a list of ints: its distinct elements, in some order
    (the loop over it only accumulates a sum). *)
Fixpoint int_set (l : list Z) : list Z :=
  match l with
  | [] => []
  | x :: r => if existsb (Z.eqb x) (int_set r) then int_set r else x :: int_set r
  end.

Definition red_ct (guess soln : Code) : Z :=
  Z.b2z (Code._peg1 guess =? Code._peg1 soln)
  + Z.b2z (Code._peg2 guess =? Code._peg2 soln)
  + Z.b2z (Code._peg3 guess =? Code._peg3 soln)
  + Z.b2z (Code._peg4 guess =? Code._peg4 soln).

(** The loop [for c in colors: white_ct += min(guess_occ, soln_occ)]. *)
Definition white_loop (guess soln : Code) (colors : list Z) (white_ct : Z) : Z :=
  fold_left (fun white_ct c =>
    let guess_occ := Counter_get Z.eqb (Counter Z.eqb (Code.pegs guess)) c in
    let soln_occ := Counter_get Z.eqb (Counter Z.eqb (Code.pegs soln)) c in
    white_ct + Z.min guess_occ soln_occ) colors white_ct.

Definition white_ct (guess soln : Code) : Z :=
  white_loop guess soln (int_set (Code.pegs guess)) 0 - red_ct guess soln.

Definition get_peg_score (guess soln : Code) : result PegScore :=
  PegScore.__init__ (red_ct guess soln) (white_ct guess soln).

(** The score as a value; [get_peg_score] always returns it (see
    [get_peg_score_OK]). *)
Definition score (guess soln : Code) : PegScore :=
  PegScore.mk (red_ct guess soln) (white_ct guess soln).

(** Notions the statements about the scorer use: a sum over a list of
    colours, the number of pegs of colour [c] two codes have in common,
    and the number of positions where two peg lists agree. *)
Definition msum (f : Z -> Z) (L : list Z) : Z :=
  fold_right (fun c n => f c + n) 0 L.

Definition common (guess soln : list Z) (c : Z) : Z :=
  Z.min (occurrences Z.eqb c guess) (occurrences Z.eqb c soln).

Fixpoint matches (guess soln : list Z) : Z :=
  match guess, soln with
  | x :: guess', y :: soln' => Z.b2z (x =? y) + matches guess' soln'
  | _, _ => 0
  end.

(** ** The selector's store *)

(** Set objects live in a store, indexed by location; a variable holding a
    set holds its location.  Locations only come from [set_new], so a
    lookup never misses and the default below is never used. *)
Abbreviation loc := nat.
Abbreviation heap := (list pyset).

Definition M (A : Type) : Type := heap -> result A * heap.

Definition ret {A} (a : A) : M A := fun h => (OK a, h).
Definition raise {A} (e : exn) : M A := fun h => (Raise e, h).
Definition bind {A B} (m : M A) (k : A -> M B) : M B :=
  fun h => match m h with
           | (OK a, h') => k a h'
           | (Raise e, h') => (Raise e, h')
           end.
Definition lift {A} (r : result A) : M A := fun h => (r, h).

Notation "'let*' x ':=' m 'in' k" := (bind m (fun x => k))
  (at level 10, x name, m at level 100, k at level 200).

Definition set_at (h : heap) (r : loc) : pyset := default [] (h !! r).

(** [set(l)] / a set-returning call: a new object. *)
Definition set_new (s : pyset) : M loc :=
  fun h => (OK (length h), h ++ [s]).

(** Reading the contents, as [for x in r] and [len(r)] do. *)
Definition set_iter (r : loc) : M pyset := fun h => (OK (set_at h r), h).

Definition set_len (r : loc) : M Z :=
  fun h => (OK (Z.of_nat (length (set_at h r))), h).

(** [c in r] *)
Definition set_in (c : Code) (r : loc) : M bool :=
  fun h => (OK (set_contains c (set_at h r)), h).

(** [r.pop()]: removes and returns an element of the set. *)
Definition set_pop (r : loc) : M Code :=
  fun h => match set_at h r with
           | [] => (Raise KeyError, h)
           | c :: s => (OK c, <[r := s]> h)
           end.

(** [r.remove(c)] *)
Definition set_remove (r : loc) (c : Code) : M unit :=
  fun h => if set_contains c (set_at h r)
           then (OK tt, <[r := set_discard c (set_at h r)]> h)
           else (Raise KeyError, h).

(** [for x in l: acc = body(acc, x)] *)
Fixpoint for_each {A B} (l : list B) (body : A -> B -> M A) (acc : A) : M A :=
  match l with
  | [] => ret acc
  | x :: l' => let* acc' := body acc x in for_each l' body acc'
  end.

(** ** The minimax selector *)

Definition get_min_eliminated (code : Code) (solution_candidates : loc) : M Z :=
  let* cands := set_iter solution_candidates in
  let* peg_scores :=
    for_each cands
      (fun peg_scores soln =>
         let* result := lift (get_peg_score code soln) in
         ret (peg_scores ++ [result])) [] in
  let ctr := Counter PegScore.__eq__ peg_scores in
  let* max_hit_ct := lift (match most_common_1 ctr with
                           | [] => Raise IndexError
                           | e :: _ => OK (snd e)
                           end) in
  let* len := set_len solution_candidates in
  let min_eliminated := len - max_hit_ct in
  ret min_eliminated.

(** One iteration of the loop [for u in unguessed] of [get_next_guess]. *)
Definition get_next_guess_body (solution_candidates : loc)
    (st : Code * Z) (u : Code) : M (Code * Z) :=
  let '(best_code, max_min_eliminated) := st in
  let* min_eliminated := get_min_eliminated u solution_candidates in
  if min_eliminated >? max_min_eliminated then ret (u, min_eliminated)
  else if min_eliminated =? max_min_eliminated then
    let* best_in := set_in best_code solution_candidates in
    let* u_in := set_in u solution_candidates in
    if best_in && negb u_in then ret (best_code, max_min_eliminated)
    else if negb best_in && u_in then ret (u, max_min_eliminated)
    else if Code.to_number u <? Code.to_number best_code
         then ret (u, max_min_eliminated)
         else ret (best_code, max_min_eliminated)
  else ret (best_code, max_min_eliminated).

Definition get_next_guess (solution_candidates unguessed : loc) : M (Code * Z) :=
  let* n := set_len unguessed in
  if n =? 0 then raise (PyException "Ran out of unguessed codes")
  else
    let* best_code := set_pop unguessed in
    let* max_min_eliminated := get_min_eliminated best_code solution_candidates in
    let* us := set_iter unguessed in
    for_each us (get_next_guess_body solution_candidates)
             (best_code, max_min_eliminated).

(** ** The game drivers *)

(** The local variables of a driver that live across loop iterations. *)
Record frame : Type := Frame {
  solution_candidates : loc;
  unguessed : loc;
  recommended_guess : Code;
  guess_num : Z
}.

(** The drivers' filtering expression
    [set([s for s in solution_candidates if get_peg_score(g, s) == peg_score])]. *)
Definition filter_candidates (solution_candidates : loc) (g : Code)
    (peg_score : PegScore) : M loc :=
  let* cands := set_iter solution_candidates in
  let* kept :=
    for_each cands
      (fun kept s =>
         let* r := lift (get_peg_score g s) in
         ret (if PegScore.__eq__ r peg_score then kept ++ [s] else kept)) [] in
  set_new (set_of_list kept).

(** The common prologue: [solution_candidates = Code.get_full_code_set()],
    [unguessed = solution_candidates], [recommended_guess = Code([1,1,2,2])]. *)
Definition game_prologue (guess_num : Z) : M frame :=
  let* solution_candidates := set_new get_full_code_set in
  let unguessed := solution_candidates in
  let* recommended_guess := lift (Code.__init__ [1; 1; 2; 2]) in
  ret (Frame solution_candidates unguessed recommended_guess guess_num).

(** One iteration of the [for] loop of [run_game_cpu_cpu]; [inl n] is
    [return n]. *)
Definition run_game_cpu_cpu_body (soln : Code) (v : frame) : M (Z + frame) :=
  let* _ := set_remove (unguessed v) (recommended_guess v) in
  let* peg_score := lift (get_peg_score (recommended_guess v) soln) in
  if Code.__eq__ (recommended_guess v) soln then ret (inl (guess_num v))
  else
    let* solution_candidates :=
      filter_candidates (solution_candidates v) (recommended_guess v) peg_score in
    let* next := get_next_guess solution_candidates (unguessed v) in
    ret (inr (Frame solution_candidates (unguessed v) (fst next)
                    (guess_num v + 1))).

Fixpoint run_game_cpu_cpu_loop (soln : Code) (range : nat) (v : frame) : M Z :=
  match range with
  | O => raise (PyException "Timeout")
  | S range' =>
      let* r := run_game_cpu_cpu_body soln v in
      match r with
      | inl n => ret n
      | inr v' => run_game_cpu_cpu_loop soln range' v'
      end
  end.

(** [run_game_cpu_cpu], for the solution [Code.generateRandom()] drew. *)
Definition run_game_cpu_cpu (soln : Code) : M Z :=
  let* v := game_prologue 1 in
  run_game_cpu_cpu_loop soln 1296 v.

(** [get_guess_input]: the player presses enter ([None]) or types a code. *)
Definition get_guess_input (suggested : Code) (typed : option Code) : Code :=
  match typed with
  | None => suggested
  | Some guess => guess
  end.

(** One iteration of the [while] loop of [run_game_human_human], for the
    guess and the score read from the terminal. *)
Definition run_game_human_human_body (typed : option Code) (entered : PegScore)
    (v : frame) : M (frame * PegScore) :=
  let guess := get_guess_input (recommended_guess v) typed in
  let* _ := set_remove (unguessed v) guess in
  let peg_score := entered in
  let* solution_candidates :=
    filter_candidates (solution_candidates v) (recommended_guess v) peg_score in
  let* next := get_next_guess solution_candidates (unguessed v) in
  ret (Frame solution_candidates (unguessed v) (fst next) (guess_num v + 1),
       peg_score).

(** One iteration of the [while] loop of [run_game_cpu_human]. *)
Definition run_game_cpu_human_body (soln : Code) (typed : option Code)
    (v : frame) : M (frame * PegScore) :=
  let guess := get_guess_input (recommended_guess v) typed in
  let* _ := set_remove (unguessed v) guess in
  let* peg_score := lift (get_peg_score guess soln) in
  let* solution_candidates :=
    filter_candidates (solution_candidates v) (recommended_guess v) peg_score in
  let* next := get_next_guess solution_candidates (unguessed v) in
  ret (Frame solution_candidates (unguessed v) (fst next) (guess_num v + 1),
       peg_score).

(** The [while peg_score != PegScore(4, 0)] loop over the lines the
    terminal delivers; [None] when the loop is still waiting for input. *)
Fixpoint while_not_won {I : Type} (body : I -> frame -> M (frame * PegScore))
    (inputs : list I) (v : frame) (peg_score : PegScore) : M (option Z) :=
  if PegScore.__eq__ peg_score (PegScore.mk 4 0) then ret (Some (guess_num v))
  else match inputs with
       | [] => ret None
       | i :: inputs' =>
           let* r := body i v in
           while_not_won body inputs' (fst r) (snd r)
       end.

Definition run_game_human_human (inputs : list (option Code * PegScore)) : M (option Z) :=
  let* v := game_prologue 0 in
  while_not_won (fun i => run_game_human_human_body (fst i) (snd i))
                inputs v (PegScore.mk 0 0).

Definition run_game_cpu_human (soln : Code) (inputs : list (option Code)) : M (option Z) :=
  let* v := game_prologue 0 in
  while_not_won (run_game_cpu_human_body soln) inputs v (PegScore.mk 0 0).

(** ** The selector as the specification words it *)

(** The candidates that give score [p] against the guess [u]. *)
Definition group (candidates : pyset) (u : Code) (p : PegScore) : list Code :=
  List.filter (fun c => PegScore.__eq__ (score u c) p) candidates.

(** The size of the largest group of candidates sharing one score. *)
Definition largest_group_size (candidates : pyset) (u : Code) : Z :=
  fold_right Z.max 0
    (List.map (fun c => Z.of_nat (length (group candidates u (score u c))))
              candidates).

(** [worst_case(u) = |candidates| - (size of the largest group)]. *)
Definition worst_case (candidates : pyset) (u : Code) : Z :=
  Z.of_nat (length candidates) - largest_group_size candidates u.

(** [better_or_equal cands v b]: the selector ranks [b] at least as high
    as [v]. *)
Definition better_or_equal (candidates : pyset) (v b : Code) : Prop :=
  worst_case candidates v < worst_case candidates b
  \/ (worst_case candidates v = worst_case candidates b
      /\ ((set_contains v candidates = false /\ set_contains b candidates = true)
          \/ (set_contains v candidates = set_contains b candidates
              /\ Code.to_number b <= Code.to_number v))).

(** ** The selector's loop as a function

    The test one iteration of the loop of [get_next_guess] makes, and the
    code the loop ends with, as pure functions of the candidates' contents
    ([get_next_guess_body_run] and [get_next_guess_run] relate them to the
    code). *)

(** [u] is preferred to [best]: a larger worst case; on equal worst cases a
    member of the candidates over a non-member; otherwise the lower
    number. *)
Definition preferred (candidates : pyset) (u best : Code) : bool :=
  (worst_case candidates u >? worst_case candidates best)
  || ((worst_case candidates u =? worst_case candidates best)
      && (if set_contains best candidates && negb (set_contains u candidates)
          then false
          else if negb (set_contains best candidates) && set_contains u candidates
               then true
               else Code.to_number u <? Code.to_number best)).

(** The code the loop of [get_next_guess] ends with. *)
Definition selected (candidates : pyset) (us : list Code) (best : Code) : Code :=
  fold_left (fun best u => if preferred candidates u best then u else best) us best.

(** ** The specification's error classes *)

(** The error classes of the specification, and the class an exception of
    the program stands for: the three [raise Exception] statements of the
    core by their message, [KeyError] for [set.remove] of a code already
    removed.  [IndexError] and the drivers' ['Timeout'] stand for none. *)
Inductive spec_error : Type :=
  | InvalidCode | InvalidScore | EmptyDomain | NotInDomain | InconsistentFeedback.

Definition error_class (e : exn) : option spec_error :=
  match e with
  | PyException msg =>
      if String.eqb msg "Code must be initialized with a list of four code peg colors"
      then Some InvalidCode
      else if String.eqb msg "Invalid peg score" then Some InvalidScore
      else if String.eqb msg "Ran out of unguessed codes" then Some EmptyDomain
      else None
  | KeyError => Some NotInDomain
  | IndexError => None
  end.

(** ** Terminal input, random solutions, the simulation *)

(** [int(i)] for a one-character string [i]: a decimal digit gives its
    value, every other ASCII character raises.  The [try] blocks that call
    it catch every exception, so a raise is [None]. *)
Definition int_of_char (i : ascii) : option Z :=
  let n := Z.of_N (N_of_ascii i) in
  if (48 <=? n) && (n <=? 57) then Some (n - 48) else None.

(** [[int(i) for i in str(guess_digits)]] *)
Fixpoint ints_of_string (guess_digits : string) : option (list Z) :=
  match guess_digits with
  | EmptyString => Some []
  | String i rest =>
      match int_of_char i with
      | None => None
      | Some d =>
          match ints_of_string rest with
          | None => None
          | Some ds => Some (d :: ds)
          end
      end
  end.

(** The [else] branch inside the [try] of [get_guess_input]:
    [Code([int(i) for i in str(guess_digits)])], [None] when it raises. *)
Definition parse_guess (guess_digits : string) : option Code :=
  match ints_of_string guess_digits with
  | None => None
  | Some peg_array =>
      match Code.__init__ peg_array with
      | OK guess => Some guess
      | Raise _ => None
      end
  end.


(** [str(n)] / [f'{n}'] for an integer. *)
Definition str_int (n : Z) : string := NilZero.string_of_int (Z.to_int n).

(** [get_peg_score_input]: every pass of the loop reads two lines and
    converts both with [int]; an answer is given by what [int] makes of the
    line, [None] when it raises.  The result is the score and the answers
    left, or [None] while the function is still waiting. *)
Fixpoint get_peg_score_input (answers : list (option Z))
    : option (PegScore * list (option Z)) :=
  match answers with
  | num_red :: num_white :: answers' =>
      match num_red, num_white with
      | Some num_red, Some num_white =>
          match PegScore.__init__ num_red num_white with
          | OK peg_score => Some (peg_score, answers')
          | Raise _ => get_peg_score_input answers'
          end
      | _, _ => get_peg_score_input answers'
      end
  | _ => None
  end.

(** [Code.generateRandom]: [choices(population, k=4)] picks four elements
    of [population = list(Code.CODE_PEG_COLORS)] by index; [draws] are the
    four indices the random generator gives. *)
Definition Code_generateRandom (population : list Z) (draws : list nat) : result Code :=
  Code.__init__ (List.map (fun i => nth i population 0) draws).




(** * Properties *)

(** ** The embedding computes *)

Example to_number_3562 : Code.to_number (Code.mk 3 5 6 2) = 3562.
Proof. reflexivity. Qed.

Example Code_init_accepts :
  Code.__init__ [1; 1; 2; 2] = OK (Code.mk 1 1 2 2).
Proof. reflexivity. Qed.

Example Code_init_rejects_color :
  Code.__init__ [1; 2; 7; 3]
  = Raise (PyException "Code must be initialized with a list of four code peg colors").
Proof. reflexivity. Qed.

Example Code_init_rejects_length :
  Code.__init__ [1; 2; 3]
  = Raise (PyException "Code must be initialized with a list of four code peg colors").
Proof. reflexivity. Qed.

Example PegScore_init_rejects :
  PegScore.__init__ 3 2 = Raise (PyException "Invalid peg score").
Proof. reflexivity. Qed.

Example get_peg_score_1122_1221 :
  get_peg_score (Code.mk 1 1 2 2) (Code.mk 1 2 2 1) = OK (PegScore.mk 2 2).
Proof. reflexivity. Qed.

Example get_peg_score_duplicates :
  get_peg_score (Code.mk 1 1 1 2) (Code.mk 2 1 3 3) = OK (PegScore.mk 1 1).
Proof. reflexivity. Qed.

Example most_common_1_example :
  most_common_1 (Counter Z.eqb [5; 3; 5; 3; 3; 4]) = [(3, 3)].
Proof. reflexivity. Qed.

(** ** Counters count occurrences *)

Section CounterFacts.
Context {K : Type} (eqb : K -> K -> bool).
Hypothesis eqb_eq : forall x y, eqb x y = true <-> x = y.

Lemma eqb_refl k : eqb k k = true.
Proof. now apply eqb_eq. Qed.

Lemma occurrences_nonneg k l : 0 <= occurrences eqb k l.
Proof.
  induction l as [|x l IH]; simpl; [lia|].
  destruct (eqb x k); simpl; lia.
Qed.

Lemma occurrences_app k l1 l2 :
  occurrences eqb k (l1 ++ l2) = occurrences eqb k l1 + occurrences eqb k l2.
Proof. induction l1 as [|x l1 IH]; simpl; lia. Qed.


Lemma occurrences_pos_In k l : 0 < occurrences eqb k l <-> In k l.
Proof.
  induction l as [|x l IH]; simpl; [lia|].
  destruct (eqb x k) eqn:E; simpl.
  - apply eqb_eq in E. pose proof (occurrences_nonneg k l). split; [auto | lia].
  - rewrite IH. split; [auto | intros [->|H]; [|exact H]].
    rewrite eqb_refl in E. discriminate.
Qed.

Lemma occurrences_Permutation k l1 l2 :
  Permutation l1 l2 -> occurrences eqb k l1 = occurrences eqb k l2.
Proof. induction 1; simpl; lia. Qed.

Lemma Counter_get_incr k ctr c :
  Counter_get eqb (Counter_incr eqb k ctr) c
  = Counter_get eqb ctr c + Z.b2z (eqb k c).
Proof.
  induction ctr as [|[k' n] r IH]; simpl.
  - destruct (eqb k c); reflexivity.
  - destruct (eqb k' k) eqn:E; simpl.
    + apply eqb_eq in E. subst k'. destruct (eqb k c); simpl; lia.
    + destruct (eqb k' c) eqn:E'; [|exact IH].
      apply eqb_eq in E'. subst k'.
      destruct (eqb k c) eqn:E''; simpl; [|lia].
      apply eqb_eq in E''. subst k. rewrite eqb_refl in E. discriminate.
Qed.

Lemma Counter_get_fold l : forall ctr c,
  Counter_get eqb (fold_left (fun ctr k => Counter_incr eqb k ctr) l ctr) c
  = Counter_get eqb ctr c + occurrences eqb c l.
Proof.
  induction l as [|x l IH]; intros ctr c; simpl; [lia|].
  rewrite IH, Counter_get_incr. lia.
Qed.

(** [Counter(l)[c]] is the number of occurrences of [c] in [l]. *)
Lemma Counter_get_Counter l c :
  Counter_get eqb (Counter eqb l) c = occurrences eqb c l.
Proof. unfold Counter. rewrite Counter_get_fold. reflexivity. Qed.

Lemma Counter_get_notin ctr k :
  ~ In k (List.map fst ctr) -> Counter_get eqb ctr k = 0.
Proof.
  induction ctr as [|[k' n] r IH]; simpl; [reflexivity|].
  intros H. destruct (eqb k' k) eqn:E.
  - apply eqb_eq in E. tauto.
  - apply IH. tauto.
Qed.

Lemma Counter_incr_keys k ctr x :
  In x (List.map fst (Counter_incr eqb k ctr)) <-> x = k \/ In x (List.map fst ctr).
Proof.
  induction ctr as [|[k' n] r IH]; simpl; [intuition|].
  destruct (eqb k' k) eqn:E; simpl.
  - apply eqb_eq in E. subst. intuition congruence.
  - rewrite IH. tauto.
Qed.

Lemma Counter_incr_NoDup k ctr :
  List.NoDup (List.map fst ctr) -> List.NoDup (List.map fst (Counter_incr eqb k ctr)).
Proof.
  induction ctr as [|[k' n] r IH]; simpl; intros H.
  - constructor; [simpl; tauto | constructor].
  - inversion H as [|? ? Hn Hr]; subst.
    destruct (eqb k' k) eqn:E; simpl.
    + constructor; assumption.
    + constructor; [|auto].
      rewrite Counter_incr_keys. intros [->|Hin]; [|tauto].
      rewrite eqb_refl in E. discriminate.
Qed.

Lemma Counter_fold_keys l : forall ctr,
  List.NoDup (List.map fst ctr) ->
  List.NoDup (List.map fst (fold_left (fun ctr k => Counter_incr eqb k ctr) l ctr))
  /\ forall x, In x (List.map fst (fold_left (fun ctr k => Counter_incr eqb k ctr) l ctr))
               <-> In x l \/ In x (List.map fst ctr).
Proof.
  induction l as [|a l IH]; intros ctr H; simpl.
  - split; [exact H | tauto].
  - destruct (IH (Counter_incr eqb a ctr) (Counter_incr_NoDup a ctr H)) as [H1 H2].
    split; [exact H1|]. intros x. rewrite H2, Counter_incr_keys.
    split; intros; intuition (subst; auto).
Qed.

Lemma Counter_get_In ctr k n :
  List.NoDup (List.map fst ctr) -> In (k, n) ctr -> Counter_get eqb ctr k = n.
Proof.
  induction ctr as [|[k' n'] r IH]; simpl; [tauto|].
  intros H [E|Hin].
  - inversion E; subst. now rewrite eqb_refl.
  - inversion H as [|? ? Hn Hr]; subst.
    destruct (eqb k' k) eqn:E; [|auto].
    apply eqb_eq in E. subst k'. exfalso. apply Hn.
    change k with (fst (k, n)). now apply in_map.
Qed.

(** Every entry of [Counter(l)] is an element of [l] with its number of
    occurrences. *)
Lemma Counter_entries l k n :
  In (k, n) (Counter eqb l) -> In k l /\ n = occurrences eqb k l.
Proof.
  intros Hin. destruct (Counter_fold_keys l [] (List.NoDup_nil _)) as [Hnd Hk].
  split.
  - destruct (proj1 (Hk k)) as [H|[]]; [|exact H].
    change k with (fst (k, n)). now apply in_map.
  - rewrite <- Counter_get_Counter. symmetry. now apply Counter_get_In.
Qed.

Lemma Counter_has_entry l k :
  In k l -> In (k, occurrences eqb k l) (Counter eqb l).
Proof.
  intros Hin. destruct (Counter_fold_keys l [] (List.NoDup_nil _)) as [Hnd Hk].
  assert (Hkey : In k (List.map fst (Counter eqb l))) by (apply Hk; auto).
  apply in_map_iff in Hkey. destruct Hkey as [[k' n] [E H]]. simpl in E. subst k'.
  rewrite <- (Counter_get_In _ _ _ Hnd H) in H.
  now rewrite <- Counter_get_Counter.
Qed.

Lemma most_common_fold r : forall e,
  let m := fold_left (fun best e' : K * Z => if snd best <? snd e' then e' else best) r e in
  In m (e :: r) /\ forall e', In e' (e :: r) -> snd e' <= snd m.
Proof.
  induction r as [|a r IH]; intros e; simpl.
  - split; [auto|]. intros e' [<-|[]]. lia.
  - destruct (IH (if snd e <? snd a then a else e)) as [H1 H2]. simpl in H1, H2.
    split.
    + destruct H1 as [H1|H1]; [|auto].
      rewrite <- H1. destruct (snd e <? snd a); auto.
    + intros e' He'.
      assert (Hc : snd e <= snd (if snd e <? snd a then a else e)
                   /\ snd a <= snd (if snd e <? snd a then a else e)).
      { destruct (Z.ltb_spec (snd e) (snd a)); lia. }
      destruct He' as [<-|[<-|He']].
      * etransitivity; [apply Hc|]. apply H2. auto.
      * etransitivity; [apply Hc|]. apply H2. auto.
      * apply H2. auto.
Qed.

(** [Counter(l).most_common(1)] on a non-empty list: one entry, whose
    count is the largest number of occurrences of any element. *)
Lemma most_common_1_Counter l :
  l <> [] ->
  exists k, most_common_1 (Counter eqb l) = [(k, occurrences eqb k l)]
            /\ In k l /\ forall k', occurrences eqb k' l <= occurrences eqb k l.
Proof.
  intros Hne. destruct l as [|a l]; [congruence|].
  pose proof (Counter_has_entry (a :: l) a (or_introl eq_refl)) as Ha.
  unfold most_common_1. destruct (Counter eqb (a :: l)) as [|e r] eqn:Ec; [destruct Ha|].
  destruct (most_common_fold r e) as [H1 H2].
  set (m := fold_left _ r e) in *. destruct m as [k n] eqn:Em.
  rewrite <- Ec in H1, H2.
  destruct (Counter_entries _ _ _ H1) as [Hk Hn]. subst n.
  exists k. split; [reflexivity|]. split; [exact Hk|].
  intros k'. destruct (Z.eq_dec (occurrences eqb k' (a :: l)) 0) as [Hz|Hnz].
  - rewrite Hz. apply occurrences_nonneg.
  - apply (H2 (k', occurrences eqb k' (a :: l))). apply Counter_has_entry.
    apply occurrences_pos_In. pose proof (occurrences_nonneg k' (a :: l)). lia.
Qed.
End CounterFacts.

(** ** Sums over a set of colours *)

Lemma Z_eqb_eq (x y : Z) : (x =? y) = true <-> x = y.
Proof. apply Z.eqb_eq. Qed.

Lemma msum_app f L1 L2 : msum f (L1 ++ L2) = msum f L1 + msum f L2.
Proof. induction L1 as [|a L1 IH]; simpl; lia. Qed.

Lemma msum_Permutation f L1 L2 : Permutation L1 L2 -> msum f L1 = msum f L2.
Proof. induction 1; simpl; lia. Qed.

Lemma msum_zero f L : (forall c, In c L -> f c = 0) -> msum f L = 0.
Proof.
  induction L as [|a L IH]; simpl; intros H; [reflexivity|].
  rewrite (H a), IH by auto. reflexivity.
Qed.

Lemma msum_le f g L :
  (forall c, In c L -> f c <= g c) -> msum f L <= msum g L.
Proof.
  induction L as [|a L IH]; simpl; intros H; [lia|].
  specialize (H a (or_introl eq_refl)) as Ha.
  assert (msum f L <= msum g L) by auto. lia.
Qed.

Lemma msum_plus f g L : msum (fun c => f c + g c) L = msum f L + msum g L.
Proof. induction L as [|a L IH]; simpl; lia. Qed.

Lemma msum_ext f g L : (forall c, In c L -> f c = g c) -> msum f L = msum g L.
Proof.
  induction L as [|a L IH]; simpl; intros H; [reflexivity|].
  rewrite (H a), IH by auto. reflexivity.
Qed.

(** Colours outside [L1] that contribute nothing may be added to the sum. *)
Lemma msum_superset f L1 : forall L2,
  List.NoDup L1 -> List.NoDup L2 -> incl L1 L2 ->
  (forall c, In c L2 -> ~ In c L1 -> f c = 0) ->
  msum f L1 = msum f L2.
Proof.
  induction L1 as [|a L1 IH]; intros L2 N1 N2 Hi Hz.
  - simpl. symmetry. apply msum_zero. intros c Hc. apply Hz; auto.
  - assert (Ha : In a L2) by (apply Hi; left; reflexivity).
    destruct (in_split a L2 Ha) as (l1 & l2 & ->).
    rewrite (msum_Permutation f (l1 ++ a :: l2) (a :: l1 ++ l2))
      by (symmetry; apply Permutation_middle).
    simpl. f_equal. inversion N1 as [|? ? Hna N1']; subst.
    apply IH.
    + exact N1'.
    + exact (List.NoDup_remove_1 _ _ _ N2).
    + intros c Hc. assert (Hc' : In c (l1 ++ a :: l2)) by (apply Hi; right; exact Hc).
      apply in_app_or in Hc'. apply in_or_app.
      destruct Hc' as [H|[H|H]]; [auto| subst; contradiction | auto].
    + intros c Hc Hn. apply Hz.
      * apply in_app_or in Hc. apply in_or_app. simpl. tauto.
      * intros [->|H]; [|contradiction].
        exact (List.NoDup_remove_2 _ _ _ N2 Hc).
Qed.

(** In a duplicate-free list exactly one entry equals a given member. *)
Lemma msum_indicator x L :
  List.NoDup L -> In x L -> msum (fun c => Z.b2z (x =? c)) L = 1.
Proof.
  induction L as [|a L IH]; simpl; intros N Hin; [destruct Hin|].
  inversion N as [|? ? Hna N']; subst.
  destruct (Z.eqb_spec x a) as [->|Hne]; simpl.
  - rewrite msum_zero; [reflexivity|].
    intros c Hc. destruct (Z.eqb_spec a c); [subst; contradiction | reflexivity].
  - destruct Hin as [->|Hin]; [congruence | auto].
Qed.

Lemma int_set_In l : forall x, In x (int_set l) <-> In x l.
Proof.
  induction l as [|a l IH]; intros x; simpl; [tauto|].
  destruct (existsb (Z.eqb a) (int_set l)) eqn:E; simpl; rewrite IH; [|tauto].
  apply existsb_exists in E. destruct E as (y & Hy & Ey).
  apply Z.eqb_eq in Ey. subst y. apply IH in Hy. intuition congruence.
Qed.

Lemma int_set_NoDup l : List.NoDup (int_set l).
Proof.
  induction l as [|a l IH]; simpl; [constructor|].
  destruct (existsb (Z.eqb a) (int_set l)) eqn:E; [exact IH|].
  constructor; [|exact IH]. intros Hin.
  assert (existsb (Z.eqb a) (int_set l) = true); [|congruence].
  apply existsb_exists. exists a. split; [exact Hin | apply Z.eqb_refl].
Qed.

(** Summing the occurrences of every colour counts every peg once. *)
Lemma msum_occurrences l : forall L,
  List.NoDup L -> incl l L ->
  msum (fun c => occurrences Z.eqb c l) L = Z.of_nat (length l).
Proof.
  induction l as [|x l IH]; intros L N Hi.
  - simpl. apply msum_zero. reflexivity.
  - change (fun c => occurrences Z.eqb c (x :: l))
      with (fun c => Z.b2z (x =? c) + occurrences Z.eqb c l).
    rewrite msum_plus, msum_indicator, IH; auto with datatypes.
    + simpl length. lia.
    + intros c Hc. apply Hi. now right.
Qed.

(** ** The scorer's two counts *)

Lemma white_loop_msum guess soln colors : forall acc,
  white_loop guess soln colors acc
  = acc + msum (common (Code.pegs guess) (Code.pegs soln)) colors.
Proof.
  unfold white_loop.
  induction colors as [|c colors IH]; intros acc; simpl; [lia|].
  rewrite IH. rewrite !(Counter_get_Counter Z.eqb Z_eqb_eq). unfold common. lia.
Qed.

Lemma common_nonneg g s c : 0 <= common g s c.
Proof.
  unfold common.
  pose proof (occurrences_nonneg Z.eqb c g). pose proof (occurrences_nonneg Z.eqb c s). lia.
Qed.

Lemma common_comm g s c : common g s c = common s g c.
Proof. unfold common. apply Z.min_comm. Qed.

Lemma common_notin g s c : ~ In c g -> common g s c = 0.
Proof.
  intros H. unfold common.
  pose proof (occurrences_nonneg Z.eqb c g). pose proof (occurrences_nonneg Z.eqb c s).
  pose proof (occurrences_pos_In Z.eqb Z_eqb_eq c g). 
  assert (occurrences Z.eqb c g = 0) by (destruct (Z.eq_dec (occurrences Z.eqb c g) 0); [auto | exfalso; apply H; tauto || (apply H2; lia)]).
  lia.
Qed.

(** The sum the white count starts from, over any duplicate-free list that
    contains the guess's colours. *)
Lemma total_over_superset g s L :
  List.NoDup L -> incl g L ->
  msum (common g s) (int_set g) = msum (common g s) L.
Proof.
  intros N Hi. apply msum_superset; auto using int_set_NoDup.
  - intros c Hc. apply Hi. now apply int_set_In.
  - intros c _ Hn. apply common_notin. now rewrite <- int_set_In.
Qed.

Lemma total_sym g s :
  msum (common g s) (int_set g) = msum (common s g) (int_set s).
Proof.
  rewrite (total_over_superset g s (int_set (g ++ s))).
  - rewrite (total_over_superset s g (int_set (g ++ s))).
    + apply msum_ext. intros c _. apply common_comm.
    + apply int_set_NoDup.
    + intros c Hc. apply int_set_In, in_or_app. now right.
  - apply int_set_NoDup.
  - intros c Hc. apply int_set_In, in_or_app. now left.
Qed.

Lemma total_le_length g s :
  msum (common g s) (int_set g) <= Z.of_nat (length g).
Proof.
  rewrite <- (msum_occurrences g (int_set g)).
  - apply msum_le. intros c _. unfold common. lia.
  - apply int_set_NoDup.
  - intros c Hc. now apply int_set_In.
Qed.

(** Every position where the two codes agree is a common colour. *)
Lemma matches_le_total g : forall s L,
  List.NoDup L -> incl g L ->
  matches g s <= msum (common g s) L.
Proof.
  induction g as [|x g IH]; intros s L N Hi.
  - simpl. clear Hi. induction L as [|a L IHL]; simpl; [lia|].
    inversion N; subst. pose proof (common_nonneg [] s a). 
    assert (0 <= msum (common [] s) L) by auto. lia.
  - destruct s as [|y s].
    + simpl. transitivity (msum (fun _ => 0) L).
      * rewrite msum_zero; [lia | reflexivity].
      * apply msum_le. intros c _. apply common_nonneg.
    + simpl matches.
      assert (Hg : incl g L) by (intros c Hc; apply Hi; now right).
      assert (Hx : In x L) by (apply Hi; now left).
      transitivity (msum (fun c => Z.b2z (x =? c) * Z.b2z (x =? y) + common g s c) L).
      * rewrite msum_plus. specialize (IH s L N Hg).
        assert (msum (fun c => Z.b2z (x =? c) * Z.b2z (x =? y)) L = Z.b2z (x =? y)).
        { destruct (x =? y); simpl.
          - transitivity (msum (fun c => Z.b2z (x =? c)) L);
              [apply msum_ext; intros; lia | now apply msum_indicator].
          - apply msum_zero. intros; lia. }
        lia.
      * apply msum_le. intros c _. unfold common. simpl.
        destruct (Z.eqb_spec x c), (Z.eqb_spec x y), (Z.eqb_spec y c); simpl; try lia; congruence.
Qed.

Lemma red_ct_matches guess soln :
  red_ct guess soln = matches (Code.pegs guess) (Code.pegs soln).
Proof. unfold red_ct, Code.pegs. simpl. lia. Qed.

Lemma red_ct_bounds guess soln : 0 <= red_ct guess soln <= 4.
Proof.
  unfold red_ct.
  destruct (_ =? _), (_ =? _), (_ =? _), (_ =? _); simpl; lia.
Qed.

Lemma white_ct_total guess soln :
  white_ct guess soln
  = msum (common (Code.pegs guess) (Code.pegs soln)) (int_set (Code.pegs guess))
    - red_ct guess soln.
Proof. unfold white_ct. rewrite white_loop_msum. lia. Qed.

Lemma score_bounds guess soln :
  0 <= red_ct guess soln /\ 0 <= white_ct guess soln
  /\ red_ct guess soln + white_ct guess soln <= 4.
Proof.
  pose proof (red_ct_bounds guess soln).
  rewrite white_ct_total.
  pose proof (total_le_length (Code.pegs guess) (Code.pegs soln)) as Hle.
  pose proof (matches_le_total (Code.pegs guess) (Code.pegs soln)
                (int_set (Code.pegs guess)) (int_set_NoDup _)) as Hge.
  rewrite <- red_ct_matches in Hge.
  assert (incl (Code.pegs guess) (int_set (Code.pegs guess)))
    by (intros c Hc; now apply int_set_In).
  specialize (Hge H0). simpl length in Hle. lia.
Qed.

(** The scorer never reaches the error branch of [PegScore.__init__]. *)
Lemma get_peg_score_OK guess soln :
  get_peg_score guess soln = OK (score guess soln).
Proof.
  unfold get_peg_score, PegScore.__init__, score.
  destruct (score_bounds guess soln) as (Hr & Hw & Hs).
  pose proof (red_ct_bounds guess soln).
  replace (_ || _) with false; [reflexivity|].
  symmetry. repeat (apply orb_false_iff; split); lia.
Qed.

(** ** Codes and their numeric encoding *)

Lemma Code_eq_pegs (a b : Code) :
  Code._peg1 a = Code._peg1 b -> Code._peg2 a = Code._peg2 b ->
  Code._peg3 a = Code._peg3 b -> Code._peg4 a = Code._peg4 b -> a = b.
Proof. destruct a, b; simpl; congruence. Qed.

(** On codes [Code.__init__] accepts, [==] is equality of the pegs. *)
Lemma Code_eq_iff (a b : Code) :
  Code.valid a -> Code.valid b -> (Code.__eq__ a b = true <-> a = b).
Proof.
  intros Ha Hb. unfold Code.__eq__, Code.to_number. rewrite Z.eqb_eq.
  split; [|intros ->; reflexivity].
  unfold Code.valid in *. intros H. apply Code_eq_pegs; lia.
Qed.

Lemma Code_eq_refl (a : Code) : Code.__eq__ a a = true.
Proof. apply Z.eqb_refl. Qed.

Lemma Code_eq_sym (a b : Code) : Code.__eq__ a b = Code.__eq__ b a.
Proof. apply Z.eqb_sym. Qed.

Lemma PegScore_eq_iff (p q : PegScore) : PegScore.__eq__ p q = true <-> p = q.
Proof.
  unfold PegScore.__eq__. rewrite andb_true_iff, !Z.eqb_eq.
  destruct p, q; simpl. split; [intros [-> ->]; reflexivity | intros E; inversion E; auto].
Qed.

(** ** The scorer: symmetry, totality, full match *)

Lemma red_ct_sym a b : red_ct a b = red_ct b a.
Proof.
  unfold red_ct.
  rewrite (Z.eqb_sym (Code._peg1 a)), (Z.eqb_sym (Code._peg2 a)),
          (Z.eqb_sym (Code._peg3 a)), (Z.eqb_sym (Code._peg4 a)).
  reflexivity.
Qed.

Lemma white_ct_sym a b : white_ct a b = white_ct b a.
Proof. rewrite !white_ct_total, total_sym, red_ct_sym. reflexivity. Qed.

(** C5: the score of [a] against [b] is the score of [b] against [a]; the
    red count and the white count are each symmetric in guess and
    reference. *)
Theorem get_peg_score_symmetric (a b : Code) :
  get_peg_score a b = get_peg_score b a
  /\ red_ct a b = red_ct b a
  /\ white_ct a b = white_ct b a.
Proof.
  split; [|split]; [| apply red_ct_sym | apply white_ct_sym].
  unfold get_peg_score. now rewrite red_ct_sym, white_ct_sym.
Qed.

(** C6: [get_peg_score] returns a score for every guess and reference, and
    never the error of [PegScore.__init__]: its red and white counts are
    non-negative and sum to at most 4. *)
Theorem get_peg_score_total (guess soln : Code) :
  exists ps : PegScore,
    get_peg_score guess soln = OK ps
    /\ PegScore._num_red ps = red_ct guess soln
    /\ PegScore._num_white ps = white_ct guess soln
    /\ 0 <= PegScore._num_red ps
    /\ 0 <= PegScore._num_white ps
    /\ PegScore._num_red ps + PegScore._num_white ps <= 4.
Proof.
  exists (score guess soln). split; [apply get_peg_score_OK|].
  unfold score. simpl. pose proof (score_bounds guess soln). tauto.
Qed.

Lemma red_ct_4 a b : red_ct a b = 4 <-> a = b.
Proof.
  split.
  - unfold red_ct. intros H.
    destruct (Z.eqb_spec (Code._peg1 a) (Code._peg1 b)),
             (Z.eqb_spec (Code._peg2 a) (Code._peg2 b)),
             (Z.eqb_spec (Code._peg3 a) (Code._peg3 b)),
             (Z.eqb_spec (Code._peg4 a) (Code._peg4 b));
      simpl in H; try lia.
    now apply Code_eq_pegs.
  - intros ->. unfold red_ct. rewrite !Z.eqb_refl. reflexivity.
Qed.

Lemma score_self a : score a a = PegScore.mk 4 0.
Proof.
  unfold score. rewrite white_ct_total.
  assert (Hr : red_ct a a = 4) by now apply red_ct_4.
  rewrite Hr. f_equal.
  rewrite (msum_ext _ (fun c => occurrences Z.eqb c (Code.pegs a))).
  - rewrite msum_occurrences; [reflexivity | apply int_set_NoDup |].
    intros c Hc. now apply int_set_In.
  - intros c _. unfold common. lia.
Qed.

Lemma score_full_match a b : score a b = PegScore.mk 4 0 <-> a = b.
Proof.
  split.
  - unfold score. intros H. inversion H as [[Hr Hw]]. now apply red_ct_4.
  - intros ->. apply score_self.
Qed.

(** C10: on valid codes the score is four red, no white exactly when
    guess and reference are the same code; the test [guess == soln] and the
    test [peg_score == PegScore(4, 0)] give the same answer. *)
Theorem full_match_iff_equal (a b : Code) :
  Code.valid a -> Code.valid b ->
  exists ps : PegScore,
    get_peg_score a b = OK ps
    /\ (ps = PegScore.mk 4 0 <-> a = b)
    /\ PegScore.__eq__ ps (PegScore.mk 4 0) = Code.__eq__ a b.
Proof.
  intros Ha Hb. exists (score a b).
  split; [apply get_peg_score_OK|]. split; [apply score_full_match|].
  apply eq_true_iff_eq.
  rewrite PegScore_eq_iff, (Code_eq_iff a b Ha Hb). apply score_full_match.
Qed.

Lemma full_match_iff_equal_witness :
  exists ps : PegScore,
    get_peg_score (Code.mk 1 1 2 2) (Code.mk 3 4 5 6) = OK ps
    /\ (ps = PegScore.mk 4 0 <-> Code.mk 1 1 2 2 = Code.mk 3 4 5 6)
    /\ PegScore.__eq__ ps (PegScore.mk 4 0)
       = Code.__eq__ (Code.mk 1 1 2 2) (Code.mk 3 4 5 6).
Proof.
  apply (full_match_iff_equal (Code.mk 1 1 2 2) (Code.mk 3 4 5 6));
    unfold Code.valid; simpl; lia.
Defined.

(** ** Running the selector *)

Lemma for_each_pure {A B} (f : A -> B -> A) (body : A -> B -> M A) (l : list B) :
  (forall acc x h, body acc x h = (OK (f acc x), h)) ->
  forall acc h, for_each l body acc h = (OK (fold_left f l acc), h).
Proof.
  intros Hb. induction l as [|x l IH]; intros acc h; simpl; [reflexivity|].
  unfold bind. rewrite Hb. apply IH.
Qed.

Lemma fold_left_snoc_map {A B} (f : A -> B) (l : list A) : forall acc,
  fold_left (fun acc x => acc ++ [f x]) l acc = acc ++ List.map f l.
Proof.
  induction l as [|x l IH]; intros acc; simpl.
  - now rewrite app_nil_r.
  - rewrite IH, <- app_assoc. reflexivity.
Qed.

Lemma occurrences_scores (candidates : pyset) u p :
  occurrences PegScore.__eq__ p (List.map (score u) candidates)
  = Z.of_nat (length (group candidates u p)).
Proof.
  unfold group. induction candidates as [|c cs IH]; simpl; [reflexivity|].
  rewrite IH. destruct (PegScore.__eq__ (score u c) p); simpl length; simpl Z.b2z; lia.
Qed.

Lemma fold_max_nonneg l : 0 <= fold_right Z.max 0 l.
Proof. induction l; simpl; lia. Qed.

Lemma fold_max_ge l x : In x l -> x <= fold_right Z.max 0 l.
Proof.
  induction l as [|a l IH]; simpl; [tauto|].
  intros [->|H]; [lia|]. specialize (IH H). lia.
Qed.

Lemma fold_max_In l : l <> [] -> (forall x, In x l -> 0 <= x) ->
  In (fold_right Z.max 0 l) l.
Proof.
  induction l as [|a l IH]; [congruence|]. intros _ Hpos. simpl.
  destruct l as [|b l].
  - left. simpl. specialize (Hpos a (or_introl eq_refl)). lia.
  - destruct (Z.max_spec a (fold_right Z.max 0 (b :: l))) as [[_ E]|[_ E]].
    + right. rewrite E. apply IH; [congruence|]. intros x Hx. apply Hpos. now right.
    + left. now rewrite E.
Qed.

(** The largest group: some score's group has that size and no group is
    larger. *)
Lemma largest_group_size_spec (candidates : pyset) u :
  candidates <> [] ->
  (exists c, In c candidates
     /\ Z.of_nat (length (group candidates u (score u c)))
        = largest_group_size candidates u)
  /\ forall p, Z.of_nat (length (group candidates u p))
               <= largest_group_size candidates u.
Proof.
  intros Hne. unfold largest_group_size.
  set (sizes := List.map _ candidates). split.
  - assert (Hin : In (fold_right Z.max 0 sizes) sizes).
    { apply fold_max_In.
      - subst sizes. destruct candidates; [congruence | discriminate].
      - intros x Hx. subst sizes. apply in_map_iff in Hx.
        destruct Hx as (c & <- & _). lia. }
    subst sizes. apply in_map_iff in Hin. destruct Hin as (c & E & Hc).
    exists c. split; [exact Hc | exact E].
  - intros p. destruct (group candidates u p) as [|c g] eqn:Eg.
    + simpl. apply fold_max_nonneg.
    + assert (Hc : In c (group candidates u p)) by (rewrite Eg; now left).
      unfold group in Hc. apply filter_In in Hc. destruct Hc as [Hc Hp].
      apply PegScore_eq_iff in Hp. subst p. rewrite <- Eg.
      apply fold_max_ge. subst sizes. apply in_map_iff. exists c. auto.
Qed.

Lemma largest_group_size_unique (candidates : pyset) u m :
  (exists p, Z.of_nat (length (group candidates u p)) = m) ->
  (forall p, Z.of_nat (length (group candidates u p)) <= m) ->
  candidates <> [] ->
  largest_group_size candidates u = m.
Proof.
  intros [p Hp] Hmax Hne.
  destruct (largest_group_size_spec candidates u Hne) as [(c & _ & Hc) Hle].
  specialize (Hle p). specialize (Hmax (score u c)). lia.
Qed.

(** [get_min_eliminated] reads the candidates and leaves the store alone;
    it fails on an empty candidate set, where [most_common(1)] is empty. *)
Lemma get_min_eliminated_run code sc (h : heap) :
  get_min_eliminated code sc h
  = (match set_at h sc with
     | [] => Raise IndexError
     | _ :: _ => OK (worst_case (set_at h sc) code)
     end, h).
Proof.
  unfold get_min_eliminated, bind, set_iter, set_len, lift, ret.
  rewrite (for_each_pure (fun ps soln => ps ++ [score code soln])).
  2:{ intros acc x h0. unfold bind, lift, ret. now rewrite get_peg_score_OK. }
  rewrite fold_left_snoc_map. simpl app.
  destruct (set_at h sc) as [|c cs] eqn:Ec; [reflexivity|].
  destruct (most_common_1_Counter PegScore.__eq__ PegScore_eq_iff
              (List.map (score code) (c :: cs))) as (k & Hk & Hin & Hmax);
    [discriminate|].
  rewrite Hk. cbn [snd]. f_equal. f_equal. unfold worst_case. f_equal.
  symmetry. apply largest_group_size_unique; [| |discriminate].
  - exists k. symmetry. apply occurrences_scores.
  - intros p. rewrite <- !occurrences_scores. apply Hmax.
Qed.

(** ** The order the selector maximises *)

Lemma better_or_equal_refl cands b : better_or_equal cands b b.
Proof. right. split; [reflexivity|]. right. split; [reflexivity | lia]. Qed.

Lemma better_or_equal_trans cands a b c :
  better_or_equal cands a b -> better_or_equal cands b c -> better_or_equal cands a c.
Proof.
  unfold better_or_equal.
  destruct (set_contains a cands), (set_contains b cands), (set_contains c cands);
    intros [H1|[H1 [[? ?]|[? ?]]]] [H2|[H2 [[? ?]|[? ?]]]];
    try discriminate; try (left; lia);
    right; (split; [lia|]); try (left; split; reflexivity);
    right; (split; [reflexivity | lia]).
Qed.

Lemma preferred_true cands u best :
  preferred cands u best = true -> better_or_equal cands best u.
Proof.
  unfold preferred, better_or_equal.
  destruct (Z.gtb_spec (worst_case cands u) (worst_case cands best)); simpl; [left; lia|].
  destruct (Z.eqb_spec (worst_case cands u) (worst_case cands best)); simpl; [|discriminate].
  destruct (set_contains best cands), (set_contains u cands); simpl; try discriminate;
    intros Hp; right; (split; [lia|]); try (left; split; reflexivity);
    right; (split; [reflexivity | lia]).
Qed.

Lemma preferred_false cands u best :
  preferred cands u best = false -> better_or_equal cands u best.
Proof.
  unfold preferred, better_or_equal.
  destruct (Z.gtb_spec (worst_case cands u) (worst_case cands best)); simpl; [discriminate|].
  destruct (Z.eqb_spec (worst_case cands u) (worst_case cands best)); simpl; [|left; lia].
  destruct (set_contains best cands), (set_contains u cands); simpl; try discriminate;
    intros Hp; right; (split; [lia|]); try (left; split; reflexivity);
    right; (split; [reflexivity | lia]).
Qed.

(** The loop ends with an element that ranks highest among the starting
    code and the codes iterated over. *)
Lemma selected_max cands us : forall best,
  In (selected cands us best) (best :: us)
  /\ forall v, In v (best :: us) -> better_or_equal cands v (selected cands us best).
Proof.
  unfold selected.
  induction us as [|u us IH]; intros best; simpl.
  - split; [auto|]. intros v [<-|[]]. apply better_or_equal_refl.
  - destruct (IH (if preferred cands u best then u else best)) as [H1 H2].
    split.
    + destruct H1 as [H1|H1]; [|auto].
      rewrite <- H1. destruct (preferred cands u best); auto.
    + assert (Hb : better_or_equal cands best (if preferred cands u best then u else best)
                   /\ better_or_equal cands u (if preferred cands u best then u else best)).
      { destruct (preferred cands u best) eqn:E.
        - split; [now apply preferred_true | apply better_or_equal_refl].
        - split; [apply better_or_equal_refl | now apply preferred_false]. }
      intros v [<-|[<-|Hv]].
      * eapply better_or_equal_trans; [apply Hb | apply H2; now left].
      * eapply better_or_equal_trans; [apply Hb | apply H2; now left].
      * apply H2. now right.
Qed.

(** One loop iteration keeps [max_min_eliminated] the worst case of
    [best_code] and moves to [u] exactly when [u] is preferred. *)
Lemma get_next_guess_body_run sc (h : heap) best u :
  set_at h sc <> [] ->
  get_next_guess_body sc (best, worst_case (set_at h sc) best) u h
  = (OK (if preferred (set_at h sc) u best then u else best,
         worst_case (set_at h sc)
           (if preferred (set_at h sc) u best then u else best)), h).
Proof.
  intros Hne. unfold get_next_guess_body, bind. rewrite get_min_eliminated_run.
  unfold preferred, set_in, ret. cbv beta.
  destruct (set_at h sc) as [|c cs] eqn:Ec; [congruence|].
  destruct (Z.gtb_spec (worst_case (c :: cs) u) (worst_case (c :: cs) best));
    [reflexivity|].
  destruct (Z.eqb_spec (worst_case (c :: cs) u) (worst_case (c :: cs) best)) as [E|E];
    [|reflexivity].
  cbn [orb andb]. cbv beta. rewrite !Ec.
  destruct (set_contains best (c :: cs) && negb (set_contains u (c :: cs)));
    [reflexivity|].
  destruct (negb (set_contains best (c :: cs)) && set_contains u (c :: cs));
    [now rewrite E|].
  destruct (Code.to_number u <? Code.to_number best); [now rewrite E | reflexivity].
Qed.

Lemma get_next_guess_loop_run sc (h : heap) us : forall best,
  set_at h sc <> [] ->
  for_each us (get_next_guess_body sc) (best, worst_case (set_at h sc) best) h
  = (OK (selected (set_at h sc) us best,
         worst_case (set_at h sc) (selected (set_at h sc) us best)), h).
Proof.
  induction us as [|u us IH]; intros best Hne; [reflexivity|].
  cbn [for_each]. unfold bind at 1. rewrite get_next_guess_body_run by exact Hne.
  rewrite IH by exact Hne. reflexivity.
Qed.

Lemma set_at_insert_eq (h : heap) r s : (r < length h)%nat -> set_at (<[r := s]> h) r = s.
Proof. intros H. unfold set_at. now rewrite list_lookup_insert_eq. Qed.

Lemma set_at_insert_ne (h : heap) r r' s : r <> r' -> set_at (<[r := s]> h) r' = set_at h r'.
Proof. intros H. unfold set_at. now rewrite list_lookup_insert_ne. Qed.

Lemma set_at_nonempty_lt (h : heap) r : set_at h r <> [] -> (r < length h)%nat.
Proof.
  unfold set_at. destruct (h !! r) eqn:E; simpl; [|congruence].
  intros _. eapply lookup_lt_Some. exact E.
Qed.

(** [get_next_guess] on a non-empty unguessed set: the first element is
    popped for good, whether the call then succeeds or fails, and the
    candidates are read after the pop. *)
Lemma get_next_guess_run sc ug (h : heap) c0 rest :
  set_at h ug = c0 :: rest ->
  get_next_guess sc ug h
  = (match set_at (<[ug := rest]> h) sc with
     | [] => Raise IndexError
     | _ :: _ =>
         let cands := set_at (<[ug := rest]> h) sc in
         OK (selected cands rest c0, worst_case cands (selected cands rest c0))
     end, <[ug := rest]> h).
Proof.
  intros Hug.
  assert (Hlt : (ug < length h)%nat) by (apply set_at_nonempty_lt; congruence).
  unfold get_next_guess, bind at 1, set_len. rewrite Hug.
  cbn [length]. destruct (Z.eqb_spec (Z.of_nat (S (length rest))) 0); [lia|].
  unfold bind at 1, set_pop. rewrite Hug.
  unfold bind at 1. rewrite get_min_eliminated_run.
  destruct (set_at (<[ug := rest]> h) sc) as [|c cs] eqn:Ec; [reflexivity|].
  unfold bind, set_iter. rewrite set_at_insert_eq by exact Hlt.
  rewrite <- Ec. rewrite get_next_guess_loop_run; [reflexivity | congruence].
Qed.

Lemma get_next_guess_empty sc ug (h : heap) :
  set_at h ug = [] ->
  get_next_guess sc ug h = (Raise (PyException "Ran out of unguessed codes"), h).
Proof.
  intros Hug. unfold get_next_guess, bind, set_len. rewrite Hug. reflexivity.
Qed.

(** ** The selector does not depend on iteration order *)

Lemma group_size_Permutation (c1 c2 : pyset) u p :
  Permutation c1 c2 -> length (group c1 u p) = length (group c2 u p).
Proof.
  intros HP. apply Nat2Z.inj. rewrite <- !occurrences_scores.
  apply occurrences_Permutation. now apply Permutation_map.
Qed.

Lemma worst_case_Permutation (c1 c2 : pyset) u :
  Permutation c1 c2 -> worst_case c1 u = worst_case c2 u.
Proof.
  intros HP. unfold worst_case. rewrite (Permutation_length HP). f_equal.
  destruct c1 as [|a c1].
  - apply Permutation_nil in HP. now subst c2.
  - assert (Hne2 : c2 <> []).
    { intros ->. symmetry in HP. apply Permutation_nil in HP. discriminate. }
    destruct (largest_group_size_spec (a :: c1) u) as [(c & _ & Hc) Hle];
      [discriminate|].
    symmetry. apply largest_group_size_unique; [| |exact Hne2].
    + exists (score u c). now rewrite <- (group_size_Permutation _ _ u _ HP).
    + intros p. rewrite <- (group_size_Permutation _ _ u _ HP). apply Hle.
Qed.

Lemma set_contains_In c (s : pyset) :
  set_contains c s = true <-> exists x, In x s /\ Code.__eq__ c x = true.
Proof. unfold set_contains. apply existsb_exists. Qed.

Lemma set_contains_Permutation c (s1 s2 : pyset) :
  Permutation s1 s2 -> set_contains c s1 = set_contains c s2.
Proof.
  intros HP. apply eq_true_iff_eq. rewrite !set_contains_In.
  split; intros (x & Hx & E); exists x; split; auto.
  - now apply (Permutation_in _ HP).
  - now apply (Permutation_in _ (Permutation_sym HP)).
Qed.

Lemma better_or_equal_Permutation (c1 c2 : pyset) v b :
  Permutation c1 c2 -> better_or_equal c1 v b -> better_or_equal c2 v b.
Proof.
  intros HP. unfold better_or_equal.
  rewrite !(worst_case_Permutation c1 c2 _ HP),
          !(set_contains_Permutation _ c1 c2 HP). tauto.
Qed.

(** Two codes that rank each other at least as high carry the same number. *)
Lemma better_or_equal_antisym cands a b :
  better_or_equal cands a b -> better_or_equal cands b a ->
  Code.to_number a = Code.to_number b.
Proof.
  unfold better_or_equal.
  intros [H1|[H1 [[? ?]|[? ?]]]] [H2|[H2 [[? ?]|[? ?]]]]; try lia; congruence.
Qed.

(** ** The selector: minimax choice, tie-break, determinism, empty domain *)

(** C1: for non-empty candidates and a non-empty unguessed set (two set
    objects), [get_next_guess] returns a code [u] of the unguessed set
    together with [worst_case u] = |candidates| minus the size of the
    largest group of candidates sharing a score against [u]; no unguessed
    code has a larger worst case; among codes tied on the worst case a
    member of the candidates wins over a non-member, and among those still
    tied the lower number wins. *)
Theorem get_next_guess_minimax (h : heap) (sc ug : loc) :
  sc <> ug ->
  set_at h sc <> [] ->
  set_at h ug <> [] ->
  exists u : Code,
    fst (get_next_guess sc ug h) = OK (u, worst_case (set_at h sc) u)
    /\ In u (set_at h ug)
    /\ (forall v, In v (set_at h ug) ->
          worst_case (set_at h sc) v <= worst_case (set_at h sc) u)
    /\ (forall v, In v (set_at h ug) ->
          worst_case (set_at h sc) v = worst_case (set_at h sc) u ->
          set_contains v (set_at h sc) = true ->
          set_contains u (set_at h sc) = true)
    /\ (forall v, In v (set_at h ug) ->
          worst_case (set_at h sc) v = worst_case (set_at h sc) u ->
          set_contains v (set_at h sc) = set_contains u (set_at h sc) ->
          Code.to_number u <= Code.to_number v).
Proof.
  intros Hne Hc Hu.
  destruct (set_at h ug) as [|c0 rest] eqn:Eu; [congruence|].
  rewrite (get_next_guess_run sc ug h c0 rest Eu).
  rewrite set_at_insert_ne by congruence.
  destruct (set_at h sc) as [|c cs] eqn:Ec; [congruence|].
  cbn [fst]. destruct (selected_max (c :: cs) rest c0) as [Hin Hmax].
  exists (selected (c :: cs) rest c0).
  split; [reflexivity|]. split; [exact Hin|].
  split; [|split]; intros v Hv; specialize (Hmax v Hv);
    unfold better_or_equal in Hmax.
  - lia.
  - intros Hw Hvin. destruct Hmax as [?|[_ [[? ?]|[E _]]]]; [lia | congruence | congruence].
  - intros Hw Hvin. destruct Hmax as [?|[_ [[? ?]|[_ ?]]]]; [lia | congruence | assumption].
Qed.

Lemma get_next_guess_minimax_witness :
  let A := Code.mk 1 1 2 2 in
  let B := Code.mk 1 1 2 3 in
  let C := Code.mk 3 4 5 6 in
  let h : heap := [[A; B]; [C; B; A]] in
  exists u : Code,
    fst (get_next_guess 0%nat 1%nat h) = OK (u, worst_case (set_at h 0%nat) u)
    /\ In u (set_at h 1%nat)
    /\ (forall v, In v (set_at h 1%nat) ->
          worst_case (set_at h 0%nat) v <= worst_case (set_at h 0%nat) u)
    /\ (forall v, In v (set_at h 1%nat) ->
          worst_case (set_at h 0%nat) v = worst_case (set_at h 0%nat) u ->
          set_contains v (set_at h 0%nat) = true ->
          set_contains u (set_at h 0%nat) = true)
    /\ (forall v, In v (set_at h 1%nat) ->
          worst_case (set_at h 0%nat) v = worst_case (set_at h 0%nat) u ->
          set_contains v (set_at h 0%nat) = set_contains u (set_at h 0%nat) ->
          Code.to_number u <= Code.to_number v).
Proof.
  intros A B C h.
  apply (get_next_guess_minimax h 0%nat 1%nat); [lia | discriminate | discriminate].
Defined.

(** C7: the result of [get_next_guess] depends only on the two sets, not on
    the order their elements are stored or iterated in: for the same
    candidates and the same unguessed codes, listed in any two orders, the
    call returns the same code (and the same worst case), or the same
    error. *)
Theorem get_next_guess_deterministic (h1 h2 : heap) (sc1 ug1 sc2 ug2 : loc) :
  sc1 <> ug1 -> sc2 <> ug2 ->
  Permutation (set_at h1 sc1) (set_at h2 sc2) ->
  Permutation (set_at h1 ug1) (set_at h2 ug2) ->
  Forall Code.valid (set_at h1 ug1) ->
  fst (get_next_guess sc1 ug1 h1) = fst (get_next_guess sc2 ug2 h2).
Proof.
  intros Hn1 Hn2 Pc Pu Hval.
  destruct (set_at h1 ug1) as [|a1 r1] eqn:E1.
  - apply Permutation_nil in Pu.
    now rewrite (get_next_guess_empty _ _ _ E1), (get_next_guess_empty _ _ _ Pu).
  - destruct (set_at h2 ug2) as [|a2 r2] eqn:E2.
    { symmetry in Pu. apply Permutation_nil in Pu. discriminate. }
    rewrite (get_next_guess_run _ _ _ _ _ E1), (get_next_guess_run _ _ _ _ _ E2).
    rewrite !set_at_insert_ne by congruence. cbn [fst].
    destruct (set_at h1 sc1) as [|c1 cs1] eqn:Ec1.
    { apply Permutation_nil in Pc. now rewrite Pc. }
    destruct (set_at h2 sc2) as [|c2 cs2] eqn:Ec2.
    { symmetry in Pc. apply Permutation_nil in Pc. discriminate. }
    cbv zeta.
    destruct (selected_max (c1 :: cs1) r1 a1) as [Hin1 Hmax1].
    destruct (selected_max (c2 :: cs2) r2 a2) as [Hin2 Hmax2].
    set (u1 := selected (c1 :: cs1) r1 a1) in *.
    set (u2 := selected (c2 :: cs2) r2 a2) in *.
    assert (Hu2 : In u2 (a1 :: r1)) by (apply (Permutation_in _ (Permutation_sym Pu)), Hin2).
    assert (Hu1 : In u1 (a2 :: r2)) by (apply (Permutation_in _ Pu), Hin1).
    assert (Enum : Code.to_number u1 = Code.to_number u2).
    { apply (better_or_equal_antisym (c1 :: cs1)).
      - apply (better_or_equal_Permutation (c2 :: cs2)); [now symmetry | now apply Hmax2].
      - now apply Hmax1. }
    assert (Eu : u1 = u2).
    { rewrite List.Forall_forall in Hval.
      apply (Code_eq_iff u1 u2); [apply Hval, Hin1 | apply Hval, Hu2 |].
      unfold Code.__eq__. now apply Z.eqb_eq. }
    rewrite Eu, (worst_case_Permutation _ _ u2 Pc). reflexivity.
Qed.

Lemma get_next_guess_deterministic_witness :
  let A := Code.mk 1 1 2 2 in
  let B := Code.mk 1 1 2 3 in
  let C := Code.mk 3 4 5 6 in
  fst (get_next_guess 0%nat 1%nat [[A; B]; [C; B; A]])
  = fst (get_next_guess 1%nat 0%nat [[A; C; B]; [B; A]]).
Proof.
  intros A B C.
  apply (get_next_guess_deterministic [[A; B]; [C; B; A]] [[A; C; B]; [B; A]]
           0%nat 1%nat 1%nat 0%nat).
  - lia.
  - lia.
  - change (Permutation [A; B] [B; A]). apply perm_swap.
  - change (Permutation [C; B; A] [A; C; B]).
    eapply perm_trans; [apply perm_skip, perm_swap | apply perm_swap].
  - repeat constructor; unfold Code.valid; simpl; lia.
Defined.

(** C8: with an empty unguessed set [get_next_guess] raises the exception
    of its first statement, the program's empty-domain error, whatever the
    candidates are; the store is left as it was. *)
Theorem get_next_guess_empty_unguessed (h : heap) (sc ug : loc) :
  set_at h ug = [] ->
  exists e : exn,
    get_next_guess sc ug h = (Raise e, h)
    /\ e = PyException "Ran out of unguessed codes"
    /\ error_class e = Some EmptyDomain.
Proof.
  intros Hug. exists (PyException "Ran out of unguessed codes").
  split; [now apply get_next_guess_empty|]. split; reflexivity.
Qed.

Lemma get_next_guess_empty_unguessed_witness :
  exists e : exn,
    get_next_guess 0%nat 1%nat [[Code.mk 1 1 2 2]; []]
    = (Raise e, [[Code.mk 1 1 2 2]; []])
    /\ e = PyException "Ran out of unguessed codes"
    /\ error_class e = Some EmptyDomain.
Proof.
  apply (get_next_guess_empty_unguessed [[Code.mk 1 1 2 2]; []] 0%nat 1%nat).
  reflexivity.
Defined.

(** ** Sets built from lists *)

Lemma increasing_lt x l : increasing (x :: l) = true -> forall y, In y l -> x < y.
Proof.
  revert x. induction l as [|a l IH]; intros x H y Hy; [destruct Hy|].
  simpl in H. apply andb_true_iff in H. destruct H as [Hxa Hl].
  apply Z.ltb_lt in Hxa. destruct Hy as [<-|Hy]; [exact Hxa|].
  specialize (IH a Hl y Hy). lia.
Qed.

Lemma increasing_NoDup l : increasing l = true -> List.NoDup l.
Proof.
  induction l as [|x l IH]; intros H; [constructor|].
  constructor.
  - intros Hin. pose proof (increasing_lt x l H x Hin). lia.
  - apply IH. destruct l as [|y l]; [reflexivity|].
    simpl in H. apply andb_true_iff in H. tauto.
Qed.

Lemma set_contains_false c (s : pyset) :
  ~ In (Code.to_number c) (List.map Code.to_number s) -> set_contains c s = false.
Proof.
  intros H. destruct (set_contains c s) eqn:E; [|reflexivity].
  apply set_contains_In in E. destruct E as (x & Hx & E).
  unfold Code.__eq__ in E. apply Z.eqb_eq in E. exfalso. apply H.
  rewrite E. now apply in_map.
Qed.

Lemma set_add_fold_distinct (l : list Code) : forall acc,
  List.NoDup (List.map Code.to_number (acc ++ l)) ->
  fold_left (fun s c => set_add c s) l acc = acc ++ l.
Proof.
  induction l as [|a l IH]; intros acc H; simpl.
  - now rewrite app_nil_r.
  - assert (Ha : set_add a acc = acc ++ [a]).
    { unfold set_add. rewrite set_contains_false; [reflexivity|].
      rewrite map_app in H. simpl in H. apply List.NoDup_remove_2 in H.
      intros Hin. apply H. apply in_or_app. now left. }
    rewrite Ha, IH; rewrite <- app_assoc; [reflexivity | exact H].
Qed.

(** Building a set from codes of pairwise different numbers keeps them
    all, in order. *)
Lemma set_of_list_distinct (l : list Code) :
  List.NoDup (List.map Code.to_number l) -> set_of_list l = l.
Proof. intros H. unfold set_of_list. now rewrite set_add_fold_distinct. Qed.

Lemma NoDup_map_filter {A B} (f : A -> B) (p : A -> bool) (l : list A) :
  List.NoDup (List.map f l) -> List.NoDup (List.map f (List.filter p l)).
Proof.
  induction l as [|a l IH]; simpl; intros H; [constructor|].
  inversion H as [|? ? Hn H']; subst.
  destruct (p a); simpl; [|auto].
  constructor; [|auto]. intros Hin. apply Hn.
  apply in_map_iff in Hin. destruct Hin as (x & E & Hx).
  apply filter_In in Hx. rewrite <- E. apply in_map. tauto.
Qed.

Lemma all_codes_distinct : List.NoDup (List.map Code.to_number all_codes).
Proof. apply increasing_NoDup. vm_compute. reflexivity. Qed.

(** The full code set holds the 1296 codes of the nested loops. *)
Lemma get_full_code_set_codes : get_full_code_set = all_codes.
Proof.
  unfold get_full_code_set.
  rewrite set_add_fold_distinct; [reflexivity | apply all_codes_distinct].
Qed.

Lemma all_codes_valid : Forall Code.valid all_codes.
Proof.
  unfold all_codes. apply List.Forall_forall. intros c Hc.
  repeat (apply in_flat_map in Hc; destruct Hc as (? & ? & Hc)).
  apply in_map_iff in Hc. destruct Hc as (? & <- & ?).
  unfold Code.valid, Code.CODE_PEG_COLORS in *. simpl in *. lia.
Qed.

(** What [Code.__init__] accepts is valid. *)
Lemma Code_init_valid peg_array c : Code.__init__ peg_array = OK c -> Code.valid c.
Proof.
  unfold Code.__init__.
  destruct (forallb Code.is_color peg_array && (length peg_array =? 4)%nat) eqn:E;
    [|discriminate].
  intros H. inversion H; subst c. clear H.
  apply andb_true_iff in E. destruct E as [Hall Hlen].
  apply Nat.eqb_eq in Hlen.
  destruct peg_array as [|a [|b [|c [|d [|? ?]]]]]; try discriminate.
  simpl in Hall. unfold Code.is_color, Code.CODE_PEG_COLORS in Hall. simpl in Hall.
  unfold Code.valid. simpl.
  repeat match goal with
         | H : _ && _ = true |- _ => apply andb_true_iff in H; destruct H
         end.
  repeat match goal with
         | H : _ || _ = true |- _ => apply orb_true_iff in H
         end.
  repeat match goal with
         | H : context [(_ =? _) = true] |- _ => rewrite !Z.eqb_eq in H
         end.
  lia.
Qed.

Lemma bind_run {A B} (m : M A) (k : A -> M B) (h h' : heap) (a : A) :
  m h = (OK a, h') -> bind m k h = k a h'.
Proof. intros H. unfold bind. now rewrite H. Qed.

(** Every game starts with one set object, bound to both
    [solution_candidates] and [unguessed], and the suggestion 1122. *)
Lemma game_prologue_run (n : Z) :
  game_prologue n [] = (OK (Frame 0%nat 0%nat (Code.mk 1 1 2 2) n), [all_codes]).
Proof.
  unfold game_prologue, bind, set_new, lift, ret.
  rewrite get_full_code_set_codes. reflexivity.
Qed.

(** The first loop iteration of a game runs on that store. *)
Lemma game_start {B} (n : Z) (k : frame -> M B) :
  bind (game_prologue n) k []
  = k (Frame 0%nat 0%nat (Code.mk 1 1 2 2) n) [all_codes].
Proof.
  exact (bind_run (game_prologue n) k [] [all_codes]
           (Frame 0%nat 0%nat (Code.mk 1 1 2 2) n) (game_prologue_run n)).
Qed.

(** ** The drivers *)

Lemma fold_left_keep {A} (f : A -> bool) (l : list A) : forall acc,
  fold_left (fun kept s => if f s then kept ++ [s] else kept) l acc
  = acc ++ List.filter f l.
Proof.
  induction l as [|x l IH]; intros acc; simpl.
  - now rewrite app_nil_r.
  - rewrite IH. destruct (f x); [|reflexivity].
    now rewrite <- app_assoc.
Qed.

(** The filtering expression builds a new set object from the candidates
    that give the observed score against [g]. *)
Lemma filter_candidates_run sc g ps (h : heap) :
  filter_candidates sc g ps h
  = (OK (length h),
     h ++ [set_of_list
             (List.filter (fun s => PegScore.__eq__ (score g s) ps) (set_at h sc))]).
Proof.
  unfold filter_candidates, bind, set_iter.
  rewrite (for_each_pure
             (fun kept s => if PegScore.__eq__ (score g s) ps then kept ++ [s] else kept)).
  - rewrite fold_left_keep. reflexivity.
  - intros acc x h0. unfold bind, lift, ret. now rewrite get_peg_score_OK.
Qed.

(** What the selection after an emptied candidate set does. *)
Lemma get_next_guess_no_candidates sc ug (h : heap) :
  set_at h sc = [] ->
  fst (get_next_guess sc ug h)
  = match set_at h ug with
    | [] => Raise (PyException "Ran out of unguessed codes")
    | _ :: _ => Raise IndexError
    end.
Proof.
  intros Hsc. destruct (set_at h ug) as [|c0 rest] eqn:Eu.
  - now rewrite get_next_guess_empty.
  - rewrite (get_next_guess_run _ _ _ _ _ Eu).
    rewrite set_at_insert_ne by (intros ->; congruence).
    now rewrite Hsc.
Qed.

(** [get_next_guess] removes one code from a non-empty unguessed set,
    whether it returns or raises. *)
Lemma get_next_guess_shrinks_unguessed sc ug (h : heap) :
  set_at h ug <> [] ->
  S (length (set_at (snd (get_next_guess sc ug h)) ug)) = length (set_at h ug).
Proof.
  intros Hne. destruct (set_at h ug) as [|c0 rest] eqn:Eu; [congruence|].
  rewrite (get_next_guess_run _ _ _ _ _ Eu). cbn [snd].
  rewrite set_at_insert_eq; [reflexivity|].
  apply set_at_nonempty_lt. congruence.
Qed.

Lemma set_remove_OK r c (h h' : heap) :
  set_remove r c h = (OK tt, h') ->
  set_contains c (set_at h r) = true
  /\ h' = <[r := set_discard c (set_at h r)]> h
  /\ (r < length h)%nat.
Proof.
  unfold set_remove. destruct (set_contains c (set_at h r)) eqn:E; [|discriminate].
  intros H. inversion H. split; [reflexivity|]. split; [reflexivity|].
  apply set_at_nonempty_lt. intros Hnil. rewrite Hnil in E. discriminate.
Qed.

Lemma set_at_app_new (h : heap) s : set_at (h ++ [s]) (length h) = s.
Proof. unfold set_at. now rewrite list_lookup_middle. Qed.

(** The last two statements of every loop body: filter into a new set
    object, then select.  When they succeed, the new candidates are the
    filtered old ones and are a different object from the unguessed set. *)
Lemma filter_then_select sc ug g ps (h : heap) next h' :
  (ug < length h)%nat ->
  (let* sc' := filter_candidates sc g ps in
   let* next := get_next_guess sc' ug in
   ret (sc', next)) h = (OK next, h') ->
  fst next = length h
  /\ fst next <> ug
  /\ set_at h' (fst next)
     = set_of_list (List.filter (fun s => PegScore.__eq__ (score g s) ps) (set_at h sc)).
Proof.
  intros Hlt. unfold bind at 1. rewrite filter_candidates_run.
  set (new := set_of_list _). unfold bind.
  destruct (set_at (h ++ [new]) ug) as [|c0 rest] eqn:Eu.
  - rewrite get_next_guess_empty by exact Eu. discriminate.
  - rewrite (get_next_guess_run _ _ _ _ _ Eu).
    rewrite set_at_insert_ne by lia. rewrite set_at_app_new.
    destruct new as [|n0 new'] eqn:En; [discriminate|].
    unfold ret. intros H. inversion H; subst. cbn [fst].
    split; [reflexivity|]. split; [lia|].
    rewrite set_at_insert_ne by lia. apply set_at_app_new.
Qed.

(** A round of the human-versus-human game that completes leaves as
    candidates the old candidates (after the removal of the played code
    from the unguessed object) whose score against the suggestion
    [recommended_guess] is the entered score; the played code [guess] does
    not enter the filter. *)
Lemma human_round_candidates typed entered (v : frame) (h : heap) v' ps h' :
  run_game_human_human_body typed entered v h = (OK (v', ps), h') ->
  exists h1 : heap,
    set_remove (unguessed v) (get_guess_input (recommended_guess v) typed) h = (OK tt, h1)
    /\ solution_candidates v' <> unguessed v'
    /\ set_at h' (solution_candidates v')
       = set_of_list
           (List.filter
              (fun s => PegScore.__eq__ (score (recommended_guess v) s) entered)
              (set_at h1 (solution_candidates v))).
Proof.
  unfold run_game_human_human_body. unfold bind at 1.
  destruct (set_remove _ _ h) as [[[]|e] h1] eqn:Hrm; [|discriminate].
  intros H. exists h1. split; [reflexivity|].
  destruct (set_remove_OK _ _ _ _ Hrm) as (_ & Hh1 & Hlt).
  assert (Hlt1 : (unguessed v < length h1)%nat)
    by (rewrite Hh1, length_insert; exact Hlt).
  pose proof (filter_then_select (solution_candidates v) (unguessed v)
                (recommended_guess v) entered h1) as Hfs.
  unfold bind in H, Hfs.
  destruct (filter_candidates _ _ _ h1) as [[sc'|e] h2]; [|discriminate].
  destruct (get_next_guess sc' (unguessed v) h2) as [[next|e] h3]; [|discriminate].
  unfold ret in H, Hfs. inversion H; subst. cbn [solution_candidates unguessed].
  destruct (Hfs (sc', next) h' Hlt1 eq_refl) as (_ & Hne & Hset). auto.
Qed.


Lemma set_at_app_old (h : heap) s r : (r < length h)%nat -> set_at (h ++ [s]) r = set_at h r.
Proof. intros H. unfold set_at. now rewrite lookup_app_l. Qed.


(** An emptied candidate set makes the selection after it fail, in each of
    the drivers. *)
Lemma select_after_empty_filter {B} sc ug g ps (k : loc -> Code * Z -> M B)
    (h h2 : heap) sc' :
  filter_candidates sc g ps h = (OK sc', h2) ->
  set_at h2 sc' = [] ->
  fst ((let* sc' := filter_candidates sc g ps in
        let* next := get_next_guess sc' ug in
        k sc' next) h)
  = match set_at h2 ug with
    | [] => Raise (PyException "Ran out of unguessed codes")
    | _ :: _ => Raise IndexError
    end.
Proof.
  intros Hf Hsc. unfold bind. rewrite Hf.
  pose proof (get_next_guess_no_candidates sc' ug h2 Hsc) as Hg.
  destruct (get_next_guess sc' ug h2) as [[next|e] h3]; cbn [fst] in *.
  - destruct (set_at h2 ug); discriminate.
  - destruct (set_at h2 ug); inversion Hg; reflexivity.
Qed.

Lemma cpu_cpu_empty_candidates soln (v : frame) (h h1 h2 : heap) sc :
  set_remove (unguessed v) (recommended_guess v) h = (OK tt, h1) ->
  Code.__eq__ (recommended_guess v) soln = false ->
  filter_candidates (solution_candidates v) (recommended_guess v)
    (score (recommended_guess v) soln) h1 = (OK sc, h2) ->
  set_at h2 sc = [] ->
  fst (run_game_cpu_cpu_body soln v h)
  = match set_at h2 (unguessed v) with
    | [] => Raise (PyException "Ran out of unguessed codes")
    | _ :: _ => Raise IndexError
    end.
Proof.
  intros Hrm Hne Hf Hsc. unfold run_game_cpu_cpu_body.
  unfold bind at 1. rewrite Hrm. unfold bind at 1, lift.
  rewrite get_peg_score_OK, Hne.
  apply (select_after_empty_filter _ _ _ _ _ _ _ _ Hf Hsc).
Qed.

Lemma cpu_human_empty_candidates soln typed (v : frame) (h h1 h2 : heap) sc :
  set_remove (unguessed v) (get_guess_input (recommended_guess v) typed) h = (OK tt, h1) ->
  filter_candidates (solution_candidates v) (recommended_guess v)
    (score (get_guess_input (recommended_guess v) typed) soln) h1 = (OK sc, h2) ->
  set_at h2 sc = [] ->
  fst (run_game_cpu_human_body soln typed v h)
  = match set_at h2 (unguessed v) with
    | [] => Raise (PyException "Ran out of unguessed codes")
    | _ :: _ => Raise IndexError
    end.
Proof.
  intros Hrm Hf Hsc. unfold run_game_cpu_human_body.
  unfold bind at 1. rewrite Hrm. unfold bind at 1, lift.
  rewrite get_peg_score_OK.
  apply (select_after_empty_filter _ _ _ _ _ _ _ _ Hf Hsc).
Qed.

(** ** Concrete games *)

(** Statements about a concrete game start from the prologue's store and
    are settled by evaluation. *)
Ltac start_game :=
  cbv zeta;
  unfold run_game_human_human, run_game_cpu_human, run_game_cpu_cpu;
  rewrite ?game_start, ?get_full_code_set_codes.

Ltac by_evaluation :=
  repeat match goal with |- _ /\ _ => split end;
  vm_compute; reflexivity.

(** C2: a round of the computer-versus-human game in which the player
    overrides the suggestion.  The solution is 4433; the suggestion is
    1122; the player plays 3344 and gets no red, four white.  The
    candidates are filtered by the score against the suggestion 1122, not
    against the played 3344: only 2211 is kept and the solution is
    eliminated, while the set the claim describes is {4433}. *)
Theorem cpu_human_round_filters_by_suggestion :
  let soln := Code.mk 4 4 3 3 in
  let played := Code.mk 3 3 4 4 in
  let suggested := Code.mk 1 1 2 2 in
  let r := (let* v := game_prologue 0 in
            run_game_cpu_human_body soln (Some played) v) [] in
  exists v' : frame,
    fst r = OK (v', PegScore.mk 0 4)
    /\ set_at (snd r) (solution_candidates v')
       = List.filter (fun c => PegScore.__eq__ (score suggested c) (PegScore.mk 0 4))
                     (set_discard played get_full_code_set)
    /\ set_at (snd r) (solution_candidates v') = [Code.mk 2 2 1 1]
    /\ List.filter (fun c => PegScore.__eq__ (score played c) (PegScore.mk 0 4))
                   get_full_code_set = [soln].
Proof.
  start_game. exists (Frame 1%nat 0%nat (Code.mk 2 2 1 1) 1). by_evaluation.
Qed.

(** C3: [get_next_guess] changes the unguessed set it is given.  With
    candidates {1122} and unguessed {1122, 1123} it returns 1122 and leaves
    unguessed = {1123}: the code it returns is no longer in the set, so the
    driver's [unguessed.remove] of that suggestion raises [KeyError].  In
    the first round of a computer-versus-computer game (solution 2211) the
    unguessed set goes from 1296 codes to 1294. *)
Theorem get_next_guess_pops_unguessed :
  let A := Code.mk 1 1 2 2 in
  let B := Code.mk 1 1 2 3 in
  get_next_guess 0%nat 1%nat [[A]; [A; B]] = (OK (A, 0), [[A]; [B]])
  /\ set_remove 1%nat A [[A]; [B]] = (Raise KeyError, [[A]; [B]])
  /\ (let r := (let* v := game_prologue 1 in
                run_game_cpu_cpu_body (Code.mk 2 2 1 1) v) [] in
      exists v' : frame,
        fst r = OK (inr v')
        /\ length get_full_code_set = 1296%nat
        /\ length (set_at (snd r) (unguessed v')) = 1294%nat).
Proof.
  start_game. split; [by_evaluation|]. split; [by_evaluation|].
  exists (Frame 1%nat 0%nat (Code.mk 2 2 1 1) 2). by_evaluation.
Qed.

(** C4: at the start of a game the candidates and the unguessed set are the
    same set object.  Removing the first played code 1122 from the
    unguessed set removes it from the candidates as well (1295 codes are
    left); a human-versus-human game won with the first guess then filters
    the candidates down to nothing and ends in [IndexError]. *)
Theorem first_round_removal_changes_candidates :
  let r := (let* v := game_prologue 0 in
            let* _ := set_remove (unguessed v) (recommended_guess v) in
            ret v) [] in
  exists v : frame,
    fst r = OK v
    /\ recommended_guess v = Code.mk 1 1 2 2
    /\ solution_candidates v = unguessed v
    /\ set_contains (Code.mk 1 1 2 2) get_full_code_set = true
    /\ set_contains (Code.mk 1 1 2 2) (set_at (snd r) (solution_candidates v)) = false
    /\ length (set_at (snd r) (solution_candidates v)) = 1295%nat
    /\ fst (run_game_human_human [(None, PegScore.mk 4 0)] []) = Raise IndexError.
Proof.
  start_game. exists (Frame 0%nat 0%nat (Code.mk 1 1 2 2) 0). by_evaluation.
Qed.

(** C9, as stated, fails: a human-versus-human game in which the first
    guess 1122 is answered with the impossible score three red, one white.
    Filtering leaves no candidate, and the round ends in Python's
    [IndexError], which is none of the program's own errors. *)
Lemma inconsistent_feedback_raises_IndexError :
  let entered := PegScore.mk 3 1 in
  List.filter (fun c => PegScore.__eq__ (score (Code.mk 1 1 2 2) c) entered)
              get_full_code_set = []
  /\ fst ((let* v := game_prologue 0 in
           run_game_human_human_body None entered v) []) = Raise IndexError
  /\ fst (run_game_human_human [(None, entered)] []) = Raise IndexError
  /\ error_class IndexError <> Some InconsistentFeedback.
Proof.
  start_game. split; [by_evaluation|]. split; [by_evaluation|].
  split; [by_evaluation | discriminate].
Qed.

(** C9, amended: when the filtering of a round leaves no candidate, the
    round does not complete: the selection that follows raises
    [IndexError] if unguessed codes remain and the empty-domain exception
    if none remain. *)
Theorem empty_candidates_fail_in_selection
    (typed : option Code) (entered : PegScore) (v : frame) (h h1 h2 : heap) (sc : loc) :
  set_remove (unguessed v) (get_guess_input (recommended_guess v) typed) h = (OK tt, h1) ->
  filter_candidates (solution_candidates v) (recommended_guess v) entered h1 = (OK sc, h2) ->
  set_at h2 sc = [] ->
  fst (run_game_human_human_body typed entered v h)
  = match set_at h2 (unguessed v) with
    | [] => Raise (PyException "Ran out of unguessed codes")
    | _ :: _ => Raise IndexError
    end.
Proof.
  intros Hrm Hf Hsc. unfold run_game_human_human_body.
  unfold bind at 1. rewrite Hrm.
  apply (select_after_empty_filter _ _ _ _ _ _ _ _ Hf Hsc).
Qed.

Lemma empty_candidates_fail_in_selection_witness :
  let A := Code.mk 1 1 2 2 in
  let B := Code.mk 1 1 2 3 in
  let v := Frame 0%nat 1%nat A 0 in
  fst (run_game_human_human_body None (PegScore.mk 3 1) v [[A; B]; [A; B]])
  = match set_at [[A; B]; [B]; []] (unguessed v) with
    | [] => Raise (PyException "Ran out of unguessed codes")
    | _ :: _ => Raise IndexError
    end.
Proof.
  intros A B v.
  apply (empty_candidates_fail_in_selection None (PegScore.mk 3 1) v
           [[A; B]; [A; B]] [[A; B]; [B]] [[A; B]; [B]; []] 2%nat);
    vm_compute; reflexivity.
Defined.

(** * Further properties of the code *)

(** ** Constructors *)

Lemma is_color_iff (p : Z) : Code.is_color p = true <-> 1 <= p <= 6.
Proof.
  unfold Code.is_color, Code.CODE_PEG_COLORS. simpl.
  rewrite !orb_true_iff, !Z.eqb_eq. lia.
Qed.

Lemma forallb_is_color (l : list Z) :
  forallb Code.is_color l = true <-> Forall (fun p => 1 <= p <= 6) l.
Proof.
  rewrite forallb_forall, List.Forall_forall.
  split; intros H x Hx; apply is_color_iff, H, Hx.
Qed.

(** X1: [Code(peg_array)] succeeds exactly on lists of four colours 1..6,
    and the code it builds holds those four pegs in order; on every other
    list it raises the one exception of the constructor. *)
Theorem Code_init_iff (peg_array : list Z) (c : Code) :
  (Code.__init__ peg_array = OK c
   <-> length peg_array = 4%nat
       /\ Forall (fun p => 1 <= p <= 6) peg_array
       /\ Code.pegs c = peg_array)
  /\ (Code.__init__ peg_array
      = Raise (PyException
                 "Code must be initialized with a list of four code peg colors")
      <-> ~ (length peg_array = 4%nat /\ Forall (fun p => 1 <= p <= 6) peg_array)).
Proof.
  unfold Code.__init__.
  destruct (forallb Code.is_color peg_array) eqn:Ec;
    destruct (Nat.eqb_spec (length peg_array) 4) as [El|El]; cbn [andb].
  - apply forallb_is_color in Ec. split.
    + destruct peg_array as [|p1 [|p2 [|p3 [|p4 [|? ?]]]]]; try discriminate.
      simpl. split.
      * intros H. inversion H; subst c. auto.
      * intros (_ & _ & H). destruct c. unfold Code.pegs in H. simpl in H.
        inversion H. reflexivity.
    + split; [discriminate | tauto].
  - split; [|split; [tauto | reflexivity]].
    split; [discriminate | tauto].
  - split; [|split; [|reflexivity]].
    + split; [discriminate|]. intros (_ & H & _).
      apply forallb_is_color in H. congruence.
    + intros _ [_ H]. apply forallb_is_color in H. congruence.
  - split; [|split; [tauto | reflexivity]].
    split; [discriminate | tauto].
Qed.

(** X2: [PegScore(num_red, num_white)] succeeds exactly when both counts
    are non-negative and sum to at most 4 (the four tests against each
    count alone add nothing), and then holds the two counts. *)
Theorem PegScore_init_iff (num_red num_white : Z) (p : PegScore) :
  (PegScore.__init__ num_red num_white = OK p
   <-> 0 <= num_red /\ 0 <= num_white /\ num_red + num_white <= 4
       /\ p = PegScore.mk num_red num_white)
  /\ (PegScore.__init__ num_red num_white = Raise (PyException "Invalid peg score")
      <-> ~ (0 <= num_red /\ 0 <= num_white /\ num_red + num_white <= 4)).
Proof.
  unfold PegScore.__init__.
  destruct (_ || _) eqn:E.
  - repeat (apply orb_true_iff in E; destruct E as [E|E]);
      (split; [split; [discriminate | lia] | split; [lia | reflexivity]]).
  - repeat (apply orb_false_iff in E; destruct E as [E ?]).
    split.
    + split; [intros Hp; inversion Hp; subst; repeat split; lia|].
      intros (_ & _ & _ & ->). reflexivity.
    + split; [discriminate | lia].
Qed.

(** ** The full code set *)

Lemma valid_In_all_codes (c : Code) : Code.valid c -> In c all_codes.
Proof.
  intros H. destruct c as [p1 p2 p3 p4]. unfold Code.valid in H. simpl in H.
  destruct H as (H1 & H2 & H3 & H4).
  assert (Hc : forall p, 1 <= p <= 6 -> In p Code.CODE_PEG_COLORS).
  { intros p Hp. unfold Code.CODE_PEG_COLORS. simpl. lia. }
  unfold all_codes.
  apply in_flat_map. exists p1. split; [auto|].
  apply in_flat_map. exists p2. split; [auto|].
  apply in_flat_map. exists p3. split; [auto|].
  apply (List.in_map (fun p4 => Code.mk p1 p2 p3 p4)). auto.
Qed.

Lemma all_codes_length : length all_codes = 1296%nat.
Proof. vm_compute. reflexivity. Qed.

(** X3: [Code.get_full_code_set()] holds exactly the codes the constructor
    accepts, each once: 1296 codes. *)
Theorem get_full_code_set_spec :
  (forall c : Code, In c get_full_code_set <-> Code.valid c)
  /\ List.NoDup get_full_code_set
  /\ length get_full_code_set = 1296%nat.
Proof.
  rewrite get_full_code_set_codes. split; [|split].
  - intros c. split; [|apply valid_In_all_codes].
    intros H. exact (proj1 (List.Forall_forall _ _) all_codes_valid c H).
  - exact (List.NoDup_map_inv _ _ all_codes_distinct).
  - exact all_codes_length.
Qed.

(** ** Scores that never occur *)

Lemma msum_le_eq f g L :
  (forall c, In c L -> f c <= g c) -> msum f L = msum g L ->
  forall c, In c L -> f c = g c.
Proof.
  induction L as [|a L IH]; simpl; intros Hle Hs c Hc; [destruct Hc|].
  assert (Ha : f a <= g a) by auto.
  assert (Hl : msum f L <= msum g L) by (apply msum_le; auto).
  destruct Hc as [<-|Hc]; [lia|]. apply IH; auto. lia.
Qed.

(** When red and white add up to 4, every colour of the first code occurs
    at least as often in the second. *)
Lemma all_common a b c :
  red_ct a b + white_ct a b = 4 ->
  In c (Code.pegs a) ->
  occurrences Z.eqb c (Code.pegs a) <= occurrences Z.eqb c (Code.pegs b).
Proof.
  rewrite white_ct_total. intros H Hc.
  assert (Hs : msum (common (Code.pegs a) (Code.pegs b)) (int_set (Code.pegs a))
               = msum (fun c => occurrences Z.eqb c (Code.pegs a)) (int_set (Code.pegs a))).
  { rewrite msum_occurrences; [simpl length; lia | apply int_set_NoDup |].
    intros x Hx. now apply int_set_In. }
  pose proof (msum_le_eq _ _ _ (fun x _ => Z.le_min_l _ _) Hs c
                (proj2 (int_set_In _ c) Hc)) as E.
  unfold common in E. lia.
Qed.

(** X5: three red pegs leave no white peg: the scorer never returns three
    red, one white, a score [PegScore(3, 1)] accepts. *)
Theorem three_red_no_white (a b : Code) :
  (red_ct a b = 3 -> white_ct a b = 0)
  /\ get_peg_score a b <> OK (PegScore.mk 3 1)
  /\ PegScore.__init__ 3 1 = OK (PegScore.mk 3 1).
Proof.
  assert (H3 : red_ct a b = 3 -> white_ct a b = 0).
  { intros Hr. destruct (score_bounds a b) as (_ & Hw & Hs).
    destruct (Z.eq_dec (white_ct a b) 0) as [|Hn]; [assumption|].
    assert (H4 : red_ct a b + white_ct a b = 4) by lia.
    exfalso. clear Hw Hs Hn.
    pose proof (all_common a b) as Hc. specialize (fun c => Hc c H4).
    destruct a as [a1 a2 a3 a4], b as [b1 b2 b3 b4].
    unfold red_ct in Hr. unfold Code.pegs in Hc. simpl in Hr, Hc.
    destruct (Z.eqb_spec a1 b1), (Z.eqb_spec a2 b2),
             (Z.eqb_spec a3 b3), (Z.eqb_spec a4 b4);
      simpl in Hr; try lia; subst.
    - specialize (Hc a4 ltac:(auto)). rewrite Z.eqb_refl in Hc.
      destruct (Z.eqb_spec b4 a4); [congruence|]. simpl in Hc. lia.
    - specialize (Hc a3 ltac:(auto)). rewrite Z.eqb_refl in Hc.
      destruct (Z.eqb_spec b3 a3); [congruence|]. simpl in Hc. lia.
    - specialize (Hc a2 ltac:(auto)). rewrite Z.eqb_refl in Hc.
      destruct (Z.eqb_spec b2 a2); [congruence|]. simpl in Hc. lia.
    - specialize (Hc a1 ltac:(auto)). rewrite Z.eqb_refl in Hc.
      destruct (Z.eqb_spec b1 a1); [congruence|]. simpl in Hc. lia. }
  split; [exact H3|]. split; [|reflexivity].
  rewrite get_peg_score_OK. unfold score. intros H. inversion H as [[Hr Hw]].
  specialize (H3 Hr). lia.
Qed.

(** ** What [get_min_eliminated] returns *)

Lemma group_length_le (candidates : pyset) u p :
  (length (group candidates u p) <= length candidates)%nat.
Proof. unfold group. apply List.filter_length_le. Qed.

Lemma filter_length_lt {A} (f : A -> bool) (l : list A) x :
  In x l -> f x = false -> (length (List.filter f l) < length l)%nat.
Proof.
  induction l as [|a l IH]; simpl; intros Hin Hf; [destruct Hin|].
  pose proof (List.filter_length_le f l).
  destruct Hin as [->|Hin].
  - rewrite Hf. lia.
  - specialize (IH Hin Hf). destruct (f a); simpl; lia.
Qed.

Lemma NoDup_all_equal {A} (l : list A) (u : A) :
  List.NoDup l -> (forall x, In x l -> x = u) -> (length l <= 1)%nat.
Proof.
  intros Hnd Hall. destruct l as [|a [|b l]]; simpl; try lia.
  exfalso. inversion Hnd as [|? ? Hn _]; subst. apply Hn.
  rewrite (Hall a), (Hall b); simpl; auto.
Qed.

Lemma worst_case_range (candidates : pyset) u :
  candidates <> [] ->
  0 <= worst_case candidates u < Z.of_nat (length candidates).
Proof.
  intros Hne. unfold worst_case.
  destruct (largest_group_size_spec candidates u Hne) as [(c & Hc & E) _].
  rewrite <- E. pose proof (group_length_le candidates u (score u c)).
  assert (In c (group candidates u (score u c))).
  { unfold group. apply filter_In. split; [exact Hc|]. now apply PegScore_eq_iff. }
  destruct (group candidates u (score u c)); [contradiction|]. simpl length in *. lia.
Qed.

(** A guess taken from at least two candidates never leaves them all. *)
Lemma worst_case_candidate (candidates : pyset) u :
  List.NoDup candidates -> In u candidates -> (2 <= length candidates)%nat ->
  1 <= worst_case candidates u.
Proof.
  intros Hnd Hu Hlen. unfold worst_case.
  assert (Hne : candidates <> []) by (intros ->; simpl in Hlen; lia).
  destruct (largest_group_size_spec candidates u Hne) as [(c & Hc & E) _].
  rewrite <- E.
  destruct (PegScore.__eq__ (score u u) (score u c)) eqn:Ep.
  - apply PegScore_eq_iff in Ep. rewrite <- Ep, score_self.
    assert ((length (group candidates u (PegScore.mk 4 0)) <= 1)%nat); [|lia].
    apply (NoDup_all_equal _ u).
    + unfold group. now apply List.NoDup_filter.
    + intros x Hx. unfold group in Hx. apply filter_In in Hx.
      destruct Hx as [_ Hx]. apply PegScore_eq_iff in Hx.
      symmetry. now apply score_full_match.
  - pose proof (filter_length_lt
                  (fun x => PegScore.__eq__ (score u x) (score u c))
                  candidates u Hu Ep) as Hlt.
    unfold group. lia.
Qed.

(** X6: [get_min_eliminated] leaves the store as it is; on an empty
    candidate set it raises [IndexError]; otherwise it returns a number
    between 0 and the number of candidates minus one. *)
Theorem get_min_eliminated_range (code : Code) (sc : loc) (h : heap) :
  (set_at h sc = [] -> get_min_eliminated code sc h = (Raise IndexError, h))
  /\ (set_at h sc <> [] ->
      exists n : Z,
        get_min_eliminated code sc h = (OK n, h)
        /\ 0 <= n < Z.of_nat (length (set_at h sc))).
Proof.
  rewrite get_min_eliminated_run. split.
  - intros ->. reflexivity.
  - intros Hne. exists (worst_case (set_at h sc) code).
    split; [|now apply worst_case_range].
    destruct (set_at h sc); [congruence | reflexivity].
Qed.

(** X7: a guess that is itself one of at least two candidates eliminates
    at least one candidate whatever the answer: [get_min_eliminated]
    returns at least 1. *)
Theorem get_min_eliminated_candidate (code : Code) (sc : loc) (h : heap) :
  List.NoDup (set_at h sc) ->
  In code (set_at h sc) ->
  (2 <= length (set_at h sc))%nat ->
  exists n : Z, get_min_eliminated code sc h = (OK n, h) /\ 1 <= n.
Proof.
  intros Hnd Hin Hlen. rewrite get_min_eliminated_run.
  exists (worst_case (set_at h sc) code).
  split; [|now apply worst_case_candidate].
  destruct (set_at h sc); [destruct Hin | reflexivity].
Qed.

Lemma get_min_eliminated_candidate_witness :
  exists n : Z,
    get_min_eliminated (Code.mk 1 1 2 2) 0%nat [[Code.mk 1 1 2 2; Code.mk 3 4 5 6]]
    = (OK n, [[Code.mk 1 1 2 2; Code.mk 3 4 5 6]])
    /\ 1 <= n.
Proof.
  apply (get_min_eliminated_candidate (Code.mk 1 1 2 2) 0%nat
           [[Code.mk 1 1 2 2; Code.mk 3 4 5 6]]).
  - repeat constructor; simpl; intuition discriminate.
  - left. reflexivity.
  - simpl. lia.
Defined.

(** ** What [get_next_guess] returns *)

Lemma get_next_guess_best (h : heap) (sc ug : loc) :
  sc <> ug -> set_at h sc <> [] -> set_at h ug <> [] ->
  exists u : Code,
    get_next_guess sc ug h
    = (OK (u, worst_case (set_at h sc) u), <[ug := tail (set_at h ug)]> h)
    /\ In u (set_at h ug)
    /\ forall v, In v (set_at h ug) -> better_or_equal (set_at h sc) v u.
Proof.
  intros Hne Hc Hu.
  destruct (set_at h ug) as [|c0 rest] eqn:Eu; [congruence|].
  rewrite (get_next_guess_run sc ug h c0 rest Eu).
  rewrite set_at_insert_ne by congruence.
  destruct (set_at h sc) as [|c cs] eqn:Ec; [congruence|].
  destruct (selected_max (c :: cs) rest c0) as [Hin Hmax].
  exists (selected (c :: cs) rest c0). auto.
Qed.

(** X8: when at least two candidates are left and one of them is still
    unguessed, the guess [get_next_guess] returns is guaranteed to
    eliminate at least one candidate: the worst case it returns is at
    least 1. *)
Theorem get_next_guess_progress (h : heap) (sc ug : loc) (v : Code) :
  sc <> ug ->
  List.NoDup (set_at h sc) ->
  (2 <= length (set_at h sc))%nat ->
  In v (set_at h sc) -> In v (set_at h ug) ->
  exists (u : Code) (w : Z),
    fst (get_next_guess sc ug h) = OK (u, w) /\ In u (set_at h ug) /\ 1 <= w.
Proof.
  intros Hne Hnd Hlen Hvc Hvu.
  destruct (get_next_guess_best h sc ug Hne) as (u & E & Hu & Hmax).
  - intros Hnil. rewrite Hnil in Hvc. destruct Hvc.
  - intros Hnil. rewrite Hnil in Hvu. destruct Hvu.
  - exists u, (worst_case (set_at h sc) u). rewrite E. cbn [fst].
    split; [reflexivity|]. split; [exact Hu|].
    pose proof (worst_case_candidate _ v Hnd Hvc Hlen) as Hv.
    specialize (Hmax v Hvu). unfold better_or_equal in Hmax. lia.
Qed.

Lemma get_next_guess_progress_witness :
  let A := Code.mk 1 1 2 2 in
  let B := Code.mk 1 1 2 3 in
  let C := Code.mk 3 4 5 6 in
  let h : heap := [[A; B]; [C; B; A]] in
  exists (u : Code) (w : Z),
    fst (get_next_guess 0%nat 1%nat h) = OK (u, w)
    /\ In u (set_at h 1%nat) /\ 1 <= w.
Proof.
  intros A B C h.
  apply (get_next_guess_progress h 0%nat 1%nat A).
  - lia.
  - repeat constructor; simpl; intuition discriminate.
  - simpl. lia.
  - left. reflexivity.
  - right. right. left. reflexivity.
Defined.

(** X9: when a single candidate is left and it is still in the unguessed
    set, [get_next_guess] returns it, with worst case 0. *)
Theorem get_next_guess_last_candidate (h : heap) (sc ug : loc) (s : Code) :
  sc <> ug ->
  set_at h sc = [s] ->
  In s (set_at h ug) ->
  Forall Code.valid (set_at h ug) ->
  fst (get_next_guess sc ug h) = OK (s, 0).
Proof.
  intros Hne Hsc Hs Hval.
  destruct (get_next_guess_best h sc ug Hne) as (u & E & Hu & Hmax).
  - rewrite Hsc. discriminate.
  - intros Hnil. rewrite Hnil in Hs. destruct Hs.
  - rewrite E. cbn [fst].
    assert (Hw : forall x, worst_case (set_at h sc) x = 0).
    { intros x. pose proof (worst_case_range (set_at h sc) x) as Hr.
      rewrite Hsc in *. simpl length in Hr.
      assert ([s] <> []) by discriminate. specialize (Hr H). lia. }
    rewrite Hw. specialize (Hmax s Hs). unfold better_or_equal in Hmax.
    rewrite !Hw, Hsc in Hmax.
    assert (Hss : set_contains s [s] = true)
      by (unfold set_contains; simpl; now rewrite Code_eq_refl).
    assert (Hus : set_contains u [s] = true).
    { destruct Hmax as [?|[_ [[? ?]|[? _]]]]; [lia | congruence | congruence]. }
    unfold set_contains in Hus. simpl in Hus. rewrite orb_false_r in Hus.
    rewrite List.Forall_forall in Hval.
    apply (Code_eq_iff u s (Hval u Hu) (Hval s Hs)) in Hus. now subst u.
Qed.

Lemma get_next_guess_last_candidate_witness :
  fst (get_next_guess 0%nat 1%nat
         [[Code.mk 3 4 5 6]; [Code.mk 1 1 2 2; Code.mk 3 4 5 6; Code.mk 1 1 2 3]])
  = OK (Code.mk 3 4 5 6, 0).
Proof.
  apply (get_next_guess_last_candidate
           [[Code.mk 3 4 5 6]; [Code.mk 1 1 2 2; Code.mk 3 4 5 6; Code.mk 1 1 2 3]]
           0%nat 1%nat (Code.mk 3 4 5 6)).
  - lia.
  - reflexivity.
  - right. left. reflexivity.
  - repeat constructor; unfold Code.valid; simpl; lia.
Defined.

(** ** Filtering *)

Lemma set_add_In x c (s : pyset) : In x (set_add c s) -> x = c \/ In x s.
Proof.
  unfold set_add. destruct (set_contains c s); [auto|].
  intros H. apply in_app_or in H. destruct H as [H|[H|[]]]; auto.
Qed.

Lemma set_add_length c (s : pyset) : (length (set_add c s) <= S (length s))%nat.
Proof.
  unfold set_add. destruct (set_contains c s); [lia|].
  rewrite length_app. simpl. lia.
Qed.

Lemma set_contains_app x (s1 s2 : pyset) :
  set_contains x (s1 ++ s2) = set_contains x s1 || set_contains x s2.
Proof. unfold set_contains. apply existsb_app. Qed.

Lemma set_contains_add x c (s : pyset) :
  set_contains x (set_add c s) = set_contains x s || Code.__eq__ x c.
Proof.
  unfold set_add. destruct (set_contains c s) eqn:E.
  - destruct (Code.__eq__ x c) eqn:Ex; [|now rewrite orb_false_r].
    rewrite orb_true_r. unfold Code.__eq__ in Ex. apply Z.eqb_eq in Ex.
    unfold set_contains, Code.__eq__ in *. now rewrite Ex.
  - rewrite set_contains_app. unfold set_contains at 2. simpl.
    now rewrite orb_false_r.
Qed.

Lemma set_add_fold_facts (l : list Code) : forall acc : pyset,
  (forall x, In x (fold_left (fun s c => set_add c s) l acc) -> In x acc \/ In x l)
  /\ (length (fold_left (fun s c => set_add c s) l acc) <= length acc + length l)%nat
  /\ (forall x, set_contains x (fold_left (fun s c => set_add c s) l acc)
                = set_contains x acc || set_contains x l).
Proof.
  induction l as [|a l IH]; intros acc; simpl.
  - split; [auto|]. split; [lia|]. intros x.
    destruct (set_contains x acc); reflexivity.
  - destruct (IH (set_add a acc)) as (H1 & H2 & H3). split; [|split].
    + intros x Hx. destruct (H1 x Hx) as [H|H]; [|auto].
      apply set_add_In in H. intuition.
    + pose proof (set_add_length a acc). lia.
    + intros x. rewrite H3, set_contains_add.
      unfold set_contains. simpl. now rewrite orb_assoc.
Qed.

Lemma set_of_list_In x (l : list Code) : In x (set_of_list l) -> In x l.
Proof.
  intros H. destruct (proj1 (set_add_fold_facts l []) x H) as [[]|H']. exact H'.
Qed.

Lemma set_of_list_length (l : list Code) : (length (set_of_list l) <= length l)%nat.
Proof. exact (proj1 (proj2 (set_add_fold_facts l []))). Qed.

Lemma set_of_list_contains x (l : list Code) :
  set_contains x (set_of_list l) = set_contains x l.
Proof. exact (proj2 (proj2 (set_add_fold_facts l [])) x). Qed.

Lemma In_set_contains x (s : pyset) : In x s -> set_contains x s = true.
Proof.
  intros H. apply set_contains_In. exists x. split; [exact H | apply Code_eq_refl].
Qed.

(** X10: the filtering expression of the drivers always succeeds and builds
    a new set object, leaving every existing set as it was.  The new set
    holds only old candidates whose score against [g] is the observed
    one, so it never grows, and it loses no such candidate. *)
Theorem filter_candidates_spec (sc : loc) (g : Code) (ps : PegScore) (h : heap) :
  exists h' : heap,
    filter_candidates sc g ps h = (OK (length h), h')
    /\ (forall r, (r < length h)%nat -> set_at h' r = set_at h r)
    /\ (forall x, In x (set_at h' (length h)) ->
                  In x (set_at h sc) /\ score g x = ps)
    /\ (length (set_at h' (length h)) <= length (set_at h sc))%nat
    /\ (forall x, In x (set_at h sc) -> score g x = ps ->
                  set_contains x (set_at h' (length h)) = true).
Proof.
  rewrite filter_candidates_run. eexists. split; [reflexivity|].
  rewrite set_at_app_new.
  split; [intros r Hr; now apply set_at_app_old|].
  split; [|split].
  - intros x Hx. apply set_of_list_In, filter_In in Hx.
    destruct Hx as [Hx Hp]. apply PegScore_eq_iff in Hp. auto.
  - etransitivity; [apply set_of_list_length | apply List.filter_length_le].
  - intros x Hx Hp. rewrite set_of_list_contains. apply In_set_contains.
    apply filter_In. split; [exact Hx | now apply PegScore_eq_iff].
Qed.

(** ** The computer-versus-computer game *)



Lemma set_discard_In x c (s : pyset) : In x (set_discard c s) -> In x s.
Proof.
  induction s as [|y s IH]; simpl; [auto|].
  destruct (Code.__eq__ y c); [auto|]. intros [H|H]; auto.
Qed.

Lemma Code_eq_trans a b c :
  Code.__eq__ a b = true -> Code.__eq__ b c = true -> Code.__eq__ a c = true.
Proof. unfold Code.__eq__. rewrite !Z.eqb_eq. congruence. Qed.

Lemma set_contains_discard g x (s : pyset) :
  Code.__eq__ g x = false ->
  set_contains x (set_discard g s) = set_contains x s.
Proof.
  intros Hne. induction s as [|y s IH]; [reflexivity|].
  simpl. destruct (Code.__eq__ y g) eqn:Ey.
  - unfold set_contains. simpl.
    destruct (Code.__eq__ x y) eqn:Exy; [|reflexivity].
    rewrite (Code_eq_sym g x), (Code_eq_trans x y g Exy Ey) in Hne. discriminate.
  - unfold set_contains in *. simpl. now rewrite IH.
Qed.

(** The store after the removal of the played code, seen from the
    candidates: the same set, or (while both names denote one object) the
    set without the played code. *)
Lemma candidates_after_remove (h : heap) sc ug g :
  (ug < length h)%nat ->
  set_at (<[ug := set_discard g (set_at h ug)]> h) sc = set_at h sc
  \/ set_at (<[ug := set_discard g (set_at h ug)]> h) sc = set_discard g (set_at h sc).
Proof.
  intros Hlt. destruct (Nat.eq_dec ug sc) as [->|Hne].
  - right. now apply set_at_insert_eq.
  - left. now apply set_at_insert_ne.
Qed.

Lemma cpu_cpu_round_candidates soln (v : frame) (h : heap) v' h' :
  run_game_cpu_cpu_body soln v h = (OK (inr v'), h') ->
  exists h1 : heap,
    set_remove (unguessed v) (recommended_guess v) h = (OK tt, h1)
    /\ Code.__eq__ (recommended_guess v) soln = false
    /\ solution_candidates v' <> unguessed v'
    /\ guess_num v' = guess_num v + 1
    /\ set_at h' (solution_candidates v')
       = set_of_list
           (List.filter
              (fun s => PegScore.__eq__ (score (recommended_guess v) s)
                                        (score (recommended_guess v) soln))
              (set_at h1 (solution_candidates v))).
Proof.
  unfold run_game_cpu_cpu_body. unfold bind at 1.
  destruct (set_remove _ _ h) as [[[]|e] h1] eqn:Hrm; [|discriminate].
  unfold bind at 1, lift. rewrite get_peg_score_OK.
  destruct (Code.__eq__ (recommended_guess v) soln) eqn:Eq; [discriminate|].
  intros H. exists h1. split; [reflexivity|]. split; [reflexivity|].
  destruct (set_remove_OK _ _ _ _ Hrm) as (_ & Hh1 & Hlt).
  assert (Hlt1 : (unguessed v < length h1)%nat)
    by (rewrite Hh1, length_insert; exact Hlt).
  pose proof (filter_then_select (solution_candidates v) (unguessed v)
                (recommended_guess v) (score (recommended_guess v) soln) h1) as Hfs.
  unfold bind in H, Hfs.
  destruct (filter_candidates _ _ _ h1) as [[sc'|e] h2]; [|discriminate].
  destruct (get_next_guess sc' (unguessed v) h2) as [[next|e] h3]; [|discriminate].
  unfold ret in H, Hfs. inversion H; subst. cbn [solution_candidates unguessed guess_num].
  destruct (Hfs (sc', next) h' Hlt1 eq_refl) as (_ & Hne & Hset). auto.
Qed.

(** X11: a round of the computer-versus-computer game that goes on never
    eliminates the solution: if the candidates are valid codes and contain
    the solution before the round, they do after it, and every candidate
    left was a candidate before. *)
Theorem cpu_cpu_round_keeps_solution soln (v : frame) (h : heap) v' h' :
  Code.valid soln ->
  Forall Code.valid (set_at h (solution_candidates v)) ->
  set_contains soln (set_at h (solution_candidates v)) = true ->
  run_game_cpu_cpu_body soln v h = (OK (inr v'), h') ->
  set_contains soln (set_at h' (solution_candidates v')) = true
  /\ Forall Code.valid (set_at h' (solution_candidates v'))
  /\ forall x, In x (set_at h' (solution_candidates v')) ->
               In x (set_at h (solution_candidates v)).
Proof.
  intros Hs Hval Hin Hbody.
  destruct (cpu_cpu_round_candidates _ _ _ _ _ Hbody)
    as (h1 & Hrm & Hne & _ & _ & Hset).
  destruct (set_remove_OK _ _ _ _ Hrm) as (_ & Hh1 & Hlt).
  set (g := recommended_guess v) in *.
  set (cands1 := set_at h1 (solution_candidates v)) in *.
  assert (Hsub : forall x, In x cands1 -> In x (set_at h (solution_candidates v))).
  { intros x Hx. subst cands1. rewrite Hh1 in Hx.
    destruct (candidates_after_remove h (solution_candidates v) (unguessed v) g Hlt)
      as [E|E]; rewrite E in Hx; [exact Hx | now apply set_discard_In in Hx]. }
  assert (Hin1 : set_contains soln cands1 = true).
  { subst cands1. rewrite Hh1.
    destruct (candidates_after_remove h (solution_candidates v) (unguessed v) g Hlt)
      as [E|E]; rewrite E; [exact Hin|].
    now rewrite set_contains_discard. }
  rewrite List.Forall_forall in Hval.
  assert (Hsol : In soln cands1).
  { apply set_contains_In in Hin1. destruct Hin1 as (y & Hy & Ey).
    apply (Code_eq_iff soln y Hs (Hval y (Hsub y Hy))) in Ey. now subst y. }
  rewrite Hset. split; [|split].
  - rewrite set_of_list_contains. apply In_set_contains, filter_In.
    split; [exact Hsol | now apply PegScore_eq_iff].
  - apply List.Forall_forall. intros x Hx.
    apply set_of_list_In, filter_In in Hx. apply Hval, Hsub, Hx.
  - intros x Hx. apply set_of_list_In, filter_In in Hx. apply Hsub, Hx.
Qed.

Lemma cpu_cpu_round_keeps_solution_witness :
  let A := Code.mk 1 1 2 2 in
  let B := Code.mk 3 4 5 6 in
  let C := Code.mk 1 1 2 3 in
  let v := Frame 0%nat 1%nat A 1 in
  let v' := Frame 2%nat 1%nat B 2 in
  set_contains B (set_at [[A; B; C]; [C]; [B]] (solution_candidates v')) = true
  /\ Forall Code.valid (set_at [[A; B; C]; [C]; [B]] (solution_candidates v'))
  /\ forall x, In x (set_at [[A; B; C]; [C]; [B]] (solution_candidates v')) ->
               In x (set_at [[A; B; C]; [A; B; C]] (solution_candidates v)).
Proof.
  intros A B C v v'.
  apply (cpu_cpu_round_keeps_solution B v [[A; B; C]; [A; B; C]] v'
           [[A; B; C]; [C]; [B]]).
  - unfold Code.valid; simpl; lia.
  - repeat constructor; unfold Code.valid; simpl; lia.
  - reflexivity.
  - vm_compute. reflexivity.
Defined.







(** ** Reading a guess *)

Lemma parse_guess_valid (line : string) (g : Code) :
  parse_guess line = Some g -> Code.valid g.
Proof.
  unfold parse_guess. destruct (ints_of_string line) as [l|]; [|discriminate].
  destruct (Code.__init__ l) as [c|e] eqn:E; [|discriminate].
  intros H. inversion H; subst. eapply Code_init_valid, E.
Qed.


(** The character of a digit. *)
Lemma int_of_char_inv (i : ascii) (d : Z) :
  int_of_char i = Some d -> 0 <= d <= 9 /\ i = ascii_of_N (Z.to_N (48 + d)).
Proof.
  unfold int_of_char. cbv zeta.
  destruct ((48 <=? Z.of_N (N_of_ascii i)) && (Z.of_N (N_of_ascii i) <=? 57)) eqn:E;
    [|discriminate].
  apply andb_true_iff in E. destruct E as [E1 E2].
  apply Z.leb_le in E1. apply Z.leb_le in E2.
  intros H. inversion H; subst d. split; [lia|].
  replace (48 + (Z.of_N (N_of_ascii i) - 48)) with (Z.of_N (N_of_ascii i)) by lia.
  now rewrite N2Z.id, ascii_N_embedding.
Qed.

Lemma ints_of_string_4 (s : string) (a b c d : Z) :
  ints_of_string s = Some [a; b; c; d] ->
  exists i1 i2 i3 i4,
    s = String i1 (String i2 (String i3 (String i4 EmptyString)))
    /\ int_of_char i1 = Some a /\ int_of_char i2 = Some b
    /\ int_of_char i3 = Some c /\ int_of_char i4 = Some d.
Proof.
  destruct s as [|i1 [|i2 [|i3 [|i4 [|i5 s]]]]]; simpl;
    repeat (match goal with
            | |- context [int_of_char ?i] => destruct (int_of_char i) eqn:?
            end; try discriminate);
    try discriminate.
  - intros H. inversion H; subst. exists i1, i2, i3, i4. auto.
  - destruct (ints_of_string s); discriminate.
Qed.

(** The decimal form of a code's number is its four pegs as digits. *)
Lemma str_int_to_number_all :
  forallb (fun c =>
    String.eqb (str_int (Code.to_number c))
      (String (ascii_of_N (Z.to_N (48 + Code._peg1 c)))
         (String (ascii_of_N (Z.to_N (48 + Code._peg2 c)))
            (String (ascii_of_N (Z.to_N (48 + Code._peg3 c)))
               (String (ascii_of_N (Z.to_N (48 + Code._peg4 c))) EmptyString)))))
    all_codes = true.
Proof. vm_compute. reflexivity. Qed.

Lemma str_int_to_number (c : Code) :
  Code.valid c ->
  str_int (Code.to_number c)
  = String (ascii_of_N (Z.to_N (48 + Code._peg1 c)))
      (String (ascii_of_N (Z.to_N (48 + Code._peg2 c)))
         (String (ascii_of_N (Z.to_N (48 + Code._peg3 c)))
            (String (ascii_of_N (Z.to_N (48 + Code._peg4 c))) EmptyString))).
Proof.
  intros Hc. pose proof str_int_to_number_all as H.
  rewrite forallb_forall in H. apply String.eqb_eq, H.
  now apply valid_In_all_codes.
Qed.

Lemma parse_guess_digits (p1 p2 p3 p4 : Z) :
  1 <= p1 <= 6 -> 1 <= p2 <= 6 -> 1 <= p3 <= 6 -> 1 <= p4 <= 6 ->
  parse_guess
    (String (ascii_of_N (Z.to_N (48 + p1)))
       (String (ascii_of_N (Z.to_N (48 + p2)))
          (String (ascii_of_N (Z.to_N (48 + p3)))
             (String (ascii_of_N (Z.to_N (48 + p4))) EmptyString))))
  = Some (Code.mk p1 p2 p3 p4).
Proof.
  intros H1 H2 H3 H4.
  assert (Hd : forall p, 1 <= p <= 6 ->
                 int_of_char (ascii_of_N (Z.to_N (48 + p))) = Some p).
  { intros p Hp. unfold int_of_char. cbv zeta.
    rewrite N_ascii_embedding by lia. rewrite Z2N.id by lia.
    replace ((48 <=? 48 + p) && (48 + p <=? 57)) with true.
    - f_equal. lia.
    - symmetry. apply andb_true_iff. split; apply Z.leb_le; lia. }
  unfold parse_guess. cbn [ints_of_string]. rewrite !Hd by assumption.
  assert (Hi : Code.__init__ [p1; p2; p3; p4] = OK (Code.mk p1 p2 p3 p4)).
  { apply (proj1 (Code_init_iff [p1; p2; p3; p4] (Code.mk p1 p2 p3 p4))).
    split; [reflexivity|]. split; [|reflexivity]. repeat constructor; lia. }
  now rewrite Hi.
Qed.

(** X14: the lines [get_guess_input] accepts as a typed code are exactly
    the numbers it displays suggestions with: a line parses to the code
    [c] if and only if [c] is valid and the line is the decimal form of
    [c.to_number()]. *)
Theorem parse_guess_iff (line : string) (c : Code) :
  parse_guess line = Some c
  <-> Code.valid c /\ line = str_int (Code.to_number c).
Proof.
  split.
  - intros H. pose proof (parse_guess_valid _ _ H) as Hv. split; [exact Hv|].
    rewrite (str_int_to_number c Hv).
    unfold parse_guess in H.
    destruct (ints_of_string line) as [l|] eqn:El; [|discriminate].
    destruct (Code.__init__ l) as [c'|e] eqn:Ei; [|discriminate].
    inversion H; subst c'.
    apply (proj1 (Code_init_iff l c)) in Ei. destruct Ei as (Hlen & _ & Hp).
    destruct c as [p1 p2 p3 p4]. unfold Code.pegs in Hp. simpl in Hp. subst l.
    destruct (ints_of_string_4 _ _ _ _ _ El) as (i1 & i2 & i3 & i4 & -> & E1 & E2 & E3 & E4).
    apply int_of_char_inv in E1, E2, E3, E4.
    destruct E1 as [_ ->], E2 as [_ ->], E3 as [_ ->], E4 as [_ ->]. reflexivity.
  - intros [Hv ->]. rewrite (str_int_to_number c Hv).
    destruct c as [p1 p2 p3 p4]. unfold Code.valid in Hv. simpl in Hv.
    simpl. apply parse_guess_digits; tauto.
Qed.

(** ** Reading a score *)

Lemma get_peg_score_input_aux : forall (n : nat) (answers : list (option Z)) p rest,
  (length answers <= n)%nat ->
  get_peg_score_input answers = Some (p, rest) ->
  (0 <= PegScore._num_red p /\ 0 <= PegScore._num_white p
   /\ PegScore._num_red p + PegScore._num_white p <= 4)
  /\ exists used, answers = used ++ rest
                  /\ used <> [] /\ Nat.even (length used) = true.
Proof.
  induction n as [|n IH]; intros answers p rest Hlen H.
  - destruct answers; [discriminate | simpl in Hlen; lia].
  - destruct answers as [|r [|w answers']]; try discriminate.
    cbn [get_peg_score_input] in H.
    assert (Hrec : get_peg_score_input answers' = Some (p, rest) ->
                   (0 <= PegScore._num_red p /\ 0 <= PegScore._num_white p
                    /\ PegScore._num_red p + PegScore._num_white p <= 4)
                   /\ exists used, r :: w :: answers' = used ++ rest
                                   /\ used <> [] /\ Nat.even (length used) = true).
    { intros H'. destruct (IH answers' p rest ltac:(simpl in Hlen; lia) H')
        as (Hb & used & E & _ & Hev).
      split; [exact Hb|]. exists (r :: w :: used).
      split; [now rewrite E|]. split; [discriminate | exact Hev]. }
    destruct r as [r|]; [|destruct w; auto].
    destruct w as [w|]; [|auto].
    destruct (PegScore.__init__ r w) as [q|e] eqn:Ei; [|auto].
    inversion H; subst q rest.
    apply (proj1 (PegScore_init_iff r w p)) in Ei.
    destruct Ei as (Hr & Hw & Hs & ->). split; [simpl; lia|].
    exists [Some r; Some w]. split; [reflexivity|]. split; [discriminate | reflexivity].
Qed.

(** X15: [get_peg_score_input] only returns well-formed scores (counts
    non-negative, sum at most 4), and it consumes the answers in pairs:
    when one of the two is unusable, both are dropped. *)
Theorem get_peg_score_input_spec (answers : list (option Z)) (p : PegScore)
    (rest : list (option Z)) :
  get_peg_score_input answers = Some (p, rest) ->
  (0 <= PegScore._num_red p /\ 0 <= PegScore._num_white p
   /\ PegScore._num_red p + PegScore._num_white p <= 4)
  /\ exists used, answers = used ++ rest
                  /\ used <> [] /\ Nat.even (length used) = true.
Proof. apply (get_peg_score_input_aux (length answers)). lia. Qed.

Lemma get_peg_score_input_spec_witness :
  (0 <= PegScore._num_red (PegScore.mk 2 1) /\ 0 <= PegScore._num_white (PegScore.mk 2 1)
   /\ PegScore._num_red (PegScore.mk 2 1) + PegScore._num_white (PegScore.mk 2 1) <= 4)
  /\ exists used, [Some 3; None; Some 4; Some 2; Some 2; Some 1; Some 0]
                  = used ++ [Some 0]
                  /\ used <> [] /\ Nat.even (length used) = true.
Proof.
  apply (get_peg_score_input_spec
           [Some 3; None; Some 4; Some 2; Some 2; Some 1; Some 0]
           (PegScore.mk 2 1) [Some 0]).
  reflexivity.
Defined.

(** ** Random solutions *)

(** X16: [Code.generateRandom] never fails and returns a valid code,
    whatever order [list(Code.CODE_PEG_COLORS)] has and whatever four
    indices are drawn; and every valid code is returned for some draw. *)
Theorem Code_generateRandom_spec (population : list Z) :
  Permutation population Code.CODE_PEG_COLORS ->
  (forall draws : list nat,
     length draws = 4%nat -> Forall (fun i => (i < 6)%nat) draws ->
     exists c, Code_generateRandom population draws = OK c /\ Code.valid c)
  /\ (forall c : Code, Code.valid c ->
        exists draws : list nat,
          length draws = 4%nat /\ Forall (fun i => (i < 6)%nat) draws
          /\ Code_generateRandom population draws = OK c).
Proof.
  intros HP.
  assert (Hlen : length population = 6%nat) by (rewrite (Permutation_length HP); reflexivity).
  assert (Hcol : forall p, In p population <-> 1 <= p <= 6).
  { intros p. split; intros H.
    - apply (Permutation_in _ HP) in H. unfold Code.CODE_PEG_COLORS in H.
      simpl in H. lia.
    - apply (Permutation_in _ (Permutation_sym HP)).
      unfold Code.CODE_PEG_COLORS. simpl. lia. }
  split.
  - intros draws Hd Hlt. unfold Code_generateRandom.
    set (l := List.map (fun i => nth i population 0) draws).
    assert (Hl : length l = 4%nat /\ Forall (fun p => 1 <= p <= 6) l).
    { split; [subst l; now rewrite length_map|].
      subst l. apply List.Forall_forall. intros p Hp. apply in_map_iff in Hp.
      destruct Hp as (i & <- & Hi). apply Hcol, nth_In.
      rewrite List.Forall_forall in Hlt. rewrite Hlen. now apply Hlt. }
    destruct (Code.__init__ l) as [c|e] eqn:E.
    + exists c. split; [reflexivity | eapply Code_init_valid, E].
    + exfalso. destruct l as [|a [|b [|c [|d [|? ?]]]]]; try (simpl in Hl; lia).
      destruct Hl as [_ Hf].
      pose proof (proj2 (proj1 (Code_init_iff [a; b; c; d] (Code.mk a b c d)))
                    (conj eq_refl (conj Hf eq_refl))) as Hok.
      congruence.
  - intros c Hc. destruct c as [p1 p2 p3 p4]. unfold Code.valid in Hc. simpl in Hc.
    destruct Hc as (H1 & H2 & H3 & H4).
    destruct (In_nth population p1 0 (proj2 (Hcol p1) H1)) as (i1 & L1 & E1).
    destruct (In_nth population p2 0 (proj2 (Hcol p2) H2)) as (i2 & L2 & E2).
    destruct (In_nth population p3 0 (proj2 (Hcol p3) H3)) as (i3 & L3 & E3).
    destruct (In_nth population p4 0 (proj2 (Hcol p4) H4)) as (i4 & L4 & E4).
    exists [i1; i2; i3; i4]. split; [reflexivity|]. split.
    + rewrite Hlen in L1, L2, L3, L4.
      repeat (apply List.Forall_cons; [assumption|]). apply List.Forall_nil.
    + unfold Code_generateRandom. cbn [List.map]. rewrite E1, E2, E3, E4.
      apply (proj1 (Code_init_iff [p1; p2; p3; p4] (Code.mk p1 p2 p3 p4))).
      split; [reflexivity|]. split; [|reflexivity]. repeat constructor; lia.
Qed.

Lemma Code_generateRandom_spec_witness :
  (forall draws : list nat,
     length draws = 4%nat -> Forall (fun i => (i < 6)%nat) draws ->
     exists c, Code_generateRandom [3; 1; 2; 6; 5; 4] draws = OK c /\ Code.valid c)
  /\ (forall c : Code, Code.valid c ->
        exists draws : list nat,
          length draws = 4%nat /\ Forall (fun i => (i < 6)%nat) draws
          /\ Code_generateRandom [3; 1; 2; 6; 5; 4] draws = OK c).
Proof.
  apply (Code_generateRandom_spec [3; 1; 2; 6; 5; 4]).
  apply (Permutation_cons_app [1; 2] [4; 5; 6] 3).
  apply perm_skip, perm_skip.
  apply (Permutation_cons_app [4; 5] [] 6).
  apply perm_swap.
Defined.

(** ** The simulation *)






(** ** Equality and hashing of codes *)

(** X4: on valid codes [==] (equality of the numbers) holds exactly for
    codes with the same four pegs, and codes that are [==] have the same
    hash, as membership in a Python set requires. *)
Theorem Code_eq_hash (a b : Code) :
  Code.valid a -> Code.valid b ->
  (Code.__eq__ a b = true <-> Code.pegs a = Code.pegs b)
  /\ (Code.__eq__ a b = true -> Code.__hash__ a = Code.__hash__ b)
  /\ 1111 <= Code.to_number a <= 6666.
Proof.
  intros Ha Hb. rewrite (Code_eq_iff a b Ha Hb). split; [|split].
  - split; [intros ->; reflexivity|].
    destruct a, b. unfold Code.pegs. simpl. intros H. inversion H. reflexivity.
  - intros ->. reflexivity.
  - unfold Code.valid in Ha. unfold Code.to_number. lia.
Qed.

Lemma Code_eq_hash_witness :
  (Code.__eq__ (Code.mk 1 1 2 2) (Code.mk 2 2 1 1) = true
   <-> Code.pegs (Code.mk 1 1 2 2) = Code.pegs (Code.mk 2 2 1 1))
  /\ (Code.__eq__ (Code.mk 1 1 2 2) (Code.mk 2 2 1 1) = true ->
      Code.__hash__ (Code.mk 1 1 2 2) = Code.__hash__ (Code.mk 2 2 1 1))
  /\ 1111 <= Code.to_number (Code.mk 1 1 2 2) <= 6666.
Proof.
  apply (Code_eq_hash (Code.mk 1 1 2 2) (Code.mk 2 2 1 1));
    unfold Code.valid; simpl; lia.
Defined.

(** ** Scores of rearrangements *)

Lemma occurrences_count_occ (c : Z) (l : list Z) :
  occurrences Z.eqb c l = Z.of_nat (count_occ Z.eq_dec l c).
Proof.
  induction l as [|x l IH]; [reflexivity|].
  cbn [occurrences fold_right count_occ]. fold (occurrences Z.eqb c l). rewrite IH.
  destruct (Z.eq_dec x c) as [->|Hne].
  - rewrite Z.eqb_refl. simpl Z.b2z. lia.
  - destruct (Z.eqb_spec x c); [contradiction|]. simpl. lia.
Qed.

Lemma occurrences_notin (c : Z) (l : list Z) : ~ In c l -> occurrences Z.eqb c l = 0.
Proof.
  intros H. pose proof (occurrences_nonneg Z.eqb c l).
  pose proof (occurrences_pos_In Z.eqb Z_eqb_eq c l). 
  destruct (Z.eq_dec (occurrences Z.eqb c l) 0) as [E|E]; [exact E|].
  exfalso. apply H. tauto || (apply H1; lia).
Qed.

(** X18: red and white pegs add up to 4 exactly when the guess is a
    rearrangement of the reference. *)
Theorem score_sum_4_iff_rearrangement (a b : Code) :
  red_ct a b + white_ct a b = 4 <-> Permutation (Code.pegs a) (Code.pegs b).
Proof.
  split.
  - intros H.
    assert (H' : red_ct b a + white_ct b a = 4)
      by (now rewrite red_ct_sym, white_ct_sym).
    apply (Permutation_count_occ Z.eq_dec). intros c.
    apply Nat2Z.inj. rewrite <- !occurrences_count_occ.
    assert (Hab : forall x y c, red_ct x y + white_ct x y = 4 ->
              occurrences Z.eqb c (Code.pegs x) <= occurrences Z.eqb c (Code.pegs y)).
    { intros x y c0 Hxy. destruct (in_dec Z.eq_dec c0 (Code.pegs x)) as [Hin|Hn].
      - now apply all_common.
      - rewrite (occurrences_notin c0 _ Hn). apply occurrences_nonneg. }
    pose proof (Hab a b c H). pose proof (Hab b a c H'). lia.
  - intros HP. rewrite white_ct_total.
    rewrite (msum_ext _ (fun c => occurrences Z.eqb c (Code.pegs a))).
    + rewrite msum_occurrences; [simpl length; lia | apply int_set_NoDup |].
      intros c Hc. now apply int_set_In.
    + intros c _. unfold common.
      rewrite (occurrences_Permutation Z.eqb c _ _ HP). lia.
Qed.

(** ** The human-versus-human game *)




